(** * Realtime summary scrubber (fs/xfs/scrub/rtsummary.c)

    A shallow embedding of the online checker of the XFS realtime summary
    file.  The checker rebuilds the summary from the free extents of the
    realtime bitmap in a scratch file (an xfile) and compares the result
    with the summary on disk, block by block.

    Integers of the C code are [Z]; where the source fixes a width (the
    32-bit summary word, [unsigned int lenlog]) the wrap-around is written
    out.  Bytes are [Byte.byte], the scratch file is a finite map from byte
    positions to bytes. *)

From Stdlib Require Import ZArith Lia List Bool.
From Stdlib Require Import Init.Byte.
From stdpp Require Import base option list gmap.
Import ListNotations.

Local Open Scope Z_scope.

(** ** Bytes and 32-bit words *)

Definition byte_to_Z (b : byte) : Z := Z.of_N (Byte.to_N b).

Definition byte_of_Z (z : Z) : byte :=
  match Byte.of_N (Z.to_N (z mod 256)) with
  | Some b => b
  | None => x00
  end.

(** Wrap-around of an unsigned 32-bit value. *)
Definition u32 (z : Z) : Z := z mod 2 ^ 32.

(** [union xfs_suminfo_raw] (declared in xfs_format.h, outside this file):
    four bytes of memory, read either as the native-endian word [old] or as
    the big-endian word [rtg].  The fields are the bytes in memory order. *)
Record xfs_suminfo_raw := mk_raw {
  raw0 : byte;
  raw1 : byte;
  raw2 : byte;
  raw3 : byte
}.

Definition raw_zero : xfs_suminfo_raw := mk_raw x00 x00 x00 x00.

Definition raw_to_bytes (v : xfs_suminfo_raw) : list byte :=
  [raw0 v; raw1 v; raw2 v; raw3 v].

Definition raw_of_bytes (l : list byte) : xfs_suminfo_raw :=
  mk_raw (nth 0 l x00) (nth 1 l x00) (nth 2 l x00) (nth 3 l x00).

(** Most significant byte first. *)
Definition be32_to_cpu (v : xfs_suminfo_raw) : Z :=
  byte_to_Z (raw0 v) * 2 ^ 24 + byte_to_Z (raw1 v) * 2 ^ 16
  + byte_to_Z (raw2 v) * 2 ^ 8 + byte_to_Z (raw3 v).

Definition cpu_to_be32 (z : Z) : xfs_suminfo_raw :=
  mk_raw (byte_of_Z (z / 2 ^ 24)) (byte_of_Z (z / 2 ^ 16))
         (byte_of_Z (z / 2 ^ 8)) (byte_of_Z z).

(** Least significant byte first. *)
Definition le32_to_cpu (v : xfs_suminfo_raw) : Z :=
  byte_to_Z (raw3 v) * 2 ^ 24 + byte_to_Z (raw2 v) * 2 ^ 16
  + byte_to_Z (raw1 v) * 2 ^ 8 + byte_to_Z (raw0 v).

Definition cpu_to_le32 (z : Z) : xfs_suminfo_raw :=
  mk_raw (byte_of_Z z) (byte_of_Z (z / 2 ^ 8))
         (byte_of_Z (z / 2 ^ 16)) (byte_of_Z (z / 2 ^ 24)).

(** Byte order of the machine the checker runs on. *)
Inductive endianness := LittleEndian | BigEndian.

(** Reading and writing the member [old], a native-endian [__u32]. *)
Definition raw_old (cpu : endianness) (v : xfs_suminfo_raw) : Z :=
  match cpu with
  | LittleEndian => le32_to_cpu v
  | BigEndian => be32_to_cpu v
  end.

Definition raw_set_old (cpu : endianness) (z : Z) : xfs_suminfo_raw :=
  match cpu with
  | LittleEndian => cpu_to_le32 z
  | BigEndian => cpu_to_be32 z
  end.

(** [be32_add_cpu(&v->rtg, val)]: decode, add in 32 bits, encode. *)
Definition be32_add_cpu (v : xfs_suminfo_raw) (val : Z) : xfs_suminfo_raw :=
  cpu_to_be32 (u32 (be32_to_cpu v + val)).

(** Reading 32 bits as the signed [xfs_suminfo_t] (an [int32_t], declared
    in xfs_types.h, outside this file). *)
Definition s32 (z : Z) : Z := if u32 z <? 2 ^ 31 then u32 z else u32 z - 2 ^ 32.

(** [xchk_rtsum_inc]: the value returned, an [xfs_suminfo_t], and the
    updated word. *)
Definition xchk_rtsum_inc (cpu : endianness) (has_rtgroups : bool)
    (v : xfs_suminfo_raw) : Z * xfs_suminfo_raw :=
  if has_rtgroups then
    let v' := be32_add_cpu v 1 in
    (s32 (be32_to_cpu v'), v')
  else
    let v' := raw_set_old cpu (u32 (raw_old cpu v + 1)) in
    (s32 (raw_old cpu v'), v').

(** The counter a summary word holds under the file system's encoding. *)
Definition suminfo_value (cpu : endianness) (has_rtgroups : bool)
    (v : xfs_suminfo_raw) : Z :=
  if has_rtgroups then be32_to_cpu v else raw_old cpu v.

(** ** Data model *)

(** Error numbers as the kernel returns them (negated at the use sites). *)
Definition EINTR : Z := 4.
Definition ENOMEM : Z := 12.
Definition EUCLEAN : Z := 117.
Definition EFSCORRUPTED : Z := EUCLEAN.
Definition EBADMSG : Z := 74.
Definition EFSBADCRC : Z := EBADMSG.

(** Outcome flags of a scrub request ([sm_flags], xfs_fs.h). *)
Definition XFS_SCRUB_OFLAG_CORRUPT : Z := Z.shiftl 1 1.
Definition XFS_SCRUB_OFLAG_XCORRUPT : Z := Z.shiftl 1 4.

Definition XFS_DATA_FORK : Z := 0.
Definition XFS_WORDLOG : Z := 2.

(** The fields of [struct xfs_mount] (and of its superblock [m_sb]) that the
    checker reads. *)
Record xfs_mount := {
  sb_rblocks : Z;
  sb_rextents : Z;
  sb_rbmblocks : Z;
  sb_blocklog : Z;
  m_rsumlevels : Z;
  m_rsumblocks : Z;
  m_blockwsize : Z;
  m_blockmask : Z;
  m_rtx_per_rbmblock : Z;
  m_has_rtgroups : bool
}.

Record xfs_inode := {
  i_ino : Z;
  i_disk_size : Z
}.

(** A free extent of the realtime bitmap, in allocation units. *)
Record xfs_rtalloc_rec := {
  ar_startext : Z;
  ar_extcount : Z
}.

(** A realtime group: its bitmap and summary inodes, and what a walk of its
    bitmap yields. *)
Record xfs_rtgroup := {
  rtg_bitmap : xfs_inode;
  rtg_summary : xfs_inode;
  rtg_free : list xfs_rtalloc_rec;
  rtg_query_error : Z
}.

(** A file mapping as [xfs_bmapi_read] hands it back. *)
Inductive xfs_exntst := XFS_EXT_NORM | XFS_EXT_UNWRITTEN.

Record xfs_bmbt_irec := {
  br_startoff : Z;
  br_startblock : Z;
  br_blockcount : Z;
  br_state : xfs_exntst
}.

Definition DELAYSTARTBLOCK : Z := -1.
Definition HOLESTARTBLOCK : Z := -2.

(** [struct xchk_rtsummary], the checker's private buffer [sc->buf]. *)
Record xchk_rtsummary_buf := {
  rextents : Z;
  rbmblocks : Z;
  rsumblocks : Z;
  rsumlevels : Z;
  resblks : Z;
  words : list byte
}.

(** What the checker tells its collaborators, in the order it happens:
    corruption reports and reads of summary blocks. *)
Inductive event :=
| Ev_ino_set_corrupt (ino : Z)
| Ev_ino_xref_set_corrupt (ino : Z)
| Ev_fblock_set_corrupt (ino whichfork off : Z)
| Ev_rtsummary_read_buf (off : Z).

(** The scrub context.  [sc_signals] holds what the coming polls of the
    cancellation signal answer (none left: no signal); [sc_trace] is the
    list of events so far, oldest first. *)
Record xfs_scrub := mk_scrub {
  sc_ip : xfs_inode;
  sm_flags : Z;
  sc_xfile : gmap Z byte;
  sc_buf : xchk_rtsummary_buf;
  sc_signals : list bool;
  sc_trace : list event
}.

Definition set_flags (f : Z) (sc : xfs_scrub) : xfs_scrub :=
  mk_scrub (sc_ip sc) f (sc_xfile sc) (sc_buf sc) (sc_signals sc) (sc_trace sc).
Definition set_xfile (xf : gmap Z byte) (sc : xfs_scrub) : xfs_scrub :=
  mk_scrub (sc_ip sc) (sm_flags sc) xf (sc_buf sc) (sc_signals sc) (sc_trace sc).
Definition set_buf (b : xchk_rtsummary_buf) (sc : xfs_scrub) : xfs_scrub :=
  mk_scrub (sc_ip sc) (sm_flags sc) (sc_xfile sc) b (sc_signals sc) (sc_trace sc).
Definition set_signals (s : list bool) (sc : xfs_scrub) : xfs_scrub :=
  mk_scrub (sc_ip sc) (sm_flags sc) (sc_xfile sc) (sc_buf sc) s (sc_trace sc).
Definition set_ip (ip : xfs_inode) (sc : xfs_scrub) : xfs_scrub :=
  mk_scrub ip (sm_flags sc) (sc_xfile sc) (sc_buf sc) (sc_signals sc) (sc_trace sc).
Definition log_event (e : event) (sc : xfs_scrub) : xfs_scrub :=
  mk_scrub (sc_ip sc) (sm_flags sc) (sc_xfile sc) (sc_buf sc) (sc_signals sc)
           (sc_trace sc ++ [e]).

Definition set_words (w : list byte) (b : xchk_rtsummary_buf) : xchk_rtsummary_buf :=
  {| rextents := rextents b; rbmblocks := rbmblocks b; rsumblocks := rsumblocks b;
     rsumlevels := rsumlevels b; resblks := resblks b; words := w |}.

(** ** The state monad of the checker *)

Definition scrubM (A : Type) : Type := xfs_scrub -> A * xfs_scrub.

Definition ret {A} (a : A) : scrubM A := fun sc => (a, sc).

Definition bind {A B} (m : scrubM A) (k : A -> scrubM B) : scrubM B :=
  fun sc => let (a, sc') := m sc in k a sc'.

Declare Scope scrub_scope.
Delimit Scope scrub_scope with scrub.
Notation "'let*' x ':=' m 'in' k" := (bind m (fun x => k))
  (at level 10, x name, m at level 100, k at level 200) : scrub_scope.
Notation "'let*' ' p ':=' m 'in' k" :=
  (bind m (fun x => match x with p => k end))
  (at level 10, p strict pattern, m at level 100, k at level 200) : scrub_scope.

Definition gets {A} (f : xfs_scrub -> A) : scrubM A := fun sc => (f sc, sc).
Definition modify (f : xfs_scrub -> xfs_scrub) : scrubM unit := fun sc => (tt, f sc).

(** ** Collaborators outside the file, modelled *)

(** Modelled from the spec: [xchk_should_terminate] (scrub/common.h) is not
    in the source file.  It polls the cancellation signal; when the signal
    is raised it puts [-EINTR] into an [error] that is still 0 and says
    stop. *)
Definition xchk_should_terminate (error : Z) : scrubM (bool * Z) :=
  fun sc =>
    match sc_signals sc with
    | [] => ((false, error), sc)
    | false :: rest => ((false, error), set_signals rest sc)
    | true :: rest =>
        ((true, if error =? 0 then - EINTR else error), set_signals rest sc)
    end.

(** Modelled from the spec: the three reporting helpers of scrub/common.c
    are not in the source file.  Each records that the structure is
    corrupt: the inode and fork reports in [XFS_SCRUB_OFLAG_CORRUPT], the
    cross-reference report in [XFS_SCRUB_OFLAG_XCORRUPT]. *)
Definition xchk_ino_set_corrupt (ino : Z) : scrubM unit :=
  modify (fun sc =>
    log_event (Ev_ino_set_corrupt ino)
      (set_flags (Z.lor (sm_flags sc) XFS_SCRUB_OFLAG_CORRUPT) sc)).

Definition xchk_ino_xref_set_corrupt (ino : Z) : scrubM unit :=
  modify (fun sc =>
    log_event (Ev_ino_xref_set_corrupt ino)
      (set_flags (Z.lor (sm_flags sc) XFS_SCRUB_OFLAG_XCORRUPT) sc)).

Definition xchk_fblock_set_corrupt (whichfork off : Z) : scrubM unit :=
  modify (fun sc =>
    log_event (Ev_fblock_set_corrupt (i_ino (sc_ip sc)) whichfork off)
      (set_flags (Z.lor (sm_flags sc) XFS_SCRUB_OFLAG_CORRUPT) sc)).

(** Modelled from the spec: [xchk_fblock_process_error] (scrub/common.c) is
    not in the source file.  No error: carry on ([true]).  A corruption
    error of the metadata read is noted as corruption of the fork and the
    error cleared; any other error is left to propagate.  Either way the
    caller is told to stop ([false]). *)
Definition xchk_fblock_process_error (whichfork off error : Z) : scrubM (bool * Z) :=
  if error =? 0 then ret (true, 0)
  else if (error =? - EFSCORRUPTED) || (error =? - EFSBADCRC) then
    fun sc => ((false, 0), set_flags (Z.lor (sm_flags sc) XFS_SCRUB_OFLAG_CORRUPT) sc)
  else ret (false, error).

(** [xfs_bmap_is_written_extent] (xfs_bmap.h): a real mapping, neither a
    hole nor a delayed allocation, and not unwritten. *)
Definition xfs_bmap_is_real_extent (irec : xfs_bmbt_irec) : bool :=
  negb (br_startblock irec =? HOLESTARTBLOCK)
  && negb (br_startblock irec =? DELAYSTARTBLOCK).

Definition xfs_bmap_is_written_extent (irec : xfs_bmbt_irec) : bool :=
  xfs_bmap_is_real_extent irec
  && match br_state irec with XFS_EXT_UNWRITTEN => false | XFS_EXT_NORM => true end.

(** Block and byte conversions of xfs_mount.h. *)
Definition XFS_FSB_TO_B (mp : xfs_mount) (fsb : Z) : Z := Z.shiftl fsb (sb_blocklog mp).
Definition XFS_B_TO_FSB (mp : xfs_mount) (b : Z) : Z :=
  Z.shiftr (b + m_blockmask mp) (sb_blocklog mp).

(** [memcmp] over the first [n] bytes of two buffers: the sign of the first
    difference, 0 when there is none. *)
Fixpoint memcmp (a b : list byte) (n : nat) : Z :=
  match n with
  | O => 0
  | S n' =>
      let x := byte_to_Z (hd x00 a) in
      let y := byte_to_Z (hd x00 b) in
      if x <? y then -1
      else if y <? x then 1
      else memcmp (tl a) (tl b) n'
  end.

(** *** The coordinate of a free extent *)

(** Modelled from the spec: [xfs_highbit64] (xfs_bit.h) is not in the source
    file; it gives the size order of an extent length, the index of the
    highest set bit of a 64-bit value, and -1 when no bit is set. *)
Fixpoint highbit_below (n : nat) (v : Z) : Z :=
  match n with
  | O => -1
  | S n' => if Z.testbit v (Z.of_nat n') then Z.of_nat n' else highbit_below n' v
  end.

Definition xfs_highbit64 (v : Z) : Z := highbit_below 64 v.

(** Modelled from the spec: [xfs_rtx_to_rbmblock] (xfs_rtbitmap.h) is not in
    the source file; it gives the bitmap block that holds the bit of an
    allocation unit. *)
Definition xfs_rtx_to_rbmblock (mp : xfs_mount) (rtx : Z) : Z :=
  rtx / m_rtx_per_rbmblock mp.

(** Modelled from the spec: [xfs_rtsumoffs] (xfs_rtbitmap.h) is not in the
    source file; the summary word of a size order and a bitmap block, the
    orders being laid out one after the other, a word per bitmap block. *)
Definition xfs_rtsumoffs (mp : xfs_mount) (log2_len rbmoff : Z) : Z :=
  log2_len * sb_rbmblocks mp + rbmoff.

(** *** The scratch file *)

Definition xfile_byte (xf : gmap Z byte) (pos : Z) : byte :=
  default x00 (xf !! pos).

(** The [count] bytes from [pos] on; what was never stored reads as zero. *)
Definition xfile_read (xf : gmap Z byte) (count : nat) (pos : Z) : list byte :=
  map (fun i => xfile_byte xf (pos + Z.of_nat i)) (seq 0 count).

Fixpoint xfile_write (xf : gmap Z byte) (buf : list byte) (pos : Z) : gmap Z byte :=
  match buf with
  | [] => xf
  | b :: rest => xfile_write (<[pos := b]> xf) rest (pos + 1)
  end.

(** ** The file system under check and the collaborators left abstract

    The mount and realtime group under check, the byte order of the
    machine, and the answers of the code the checker calls but which lives
    outside the file: the geometry formulas and range validation of libxfs,
    the extent map of the summary inode, the buffer cache, the fork
    scrubber, and the failures of the scratch file. *)
Class xfs_env := {
  cpu : endianness;
  mp : xfs_mount;
  rtg : xfs_rtgroup;
  (* geometry, computed from the superblock *)
  xfs_blen_to_rtbxlen : xfs_mount -> Z -> Z;
  xfs_rtbitmap_blockcount : xfs_mount -> Z;
  xfs_rtsummary_blockcount : xfs_mount -> Z * Z; (* blocks, and *rsumlevels *)
  (* the physical range of an extent and its validation *)
  xfs_rtx_to_rtb : xfs_rtgroup -> Z -> Z;
  xfs_rtxlen_to_extlen : xfs_mount -> Z -> Z;
  xfs_verify_rtbext : xfs_mount -> Z -> Z -> bool;
  (* the data fork of an inode: is there a mapping at or after [off];
     the mapping at [off], as (error, nmap, map) *)
  xfs_iext_lookup_extent : xfs_inode -> Z -> bool;
  xfs_bmapi_read : xfs_inode -> Z -> Z -> Z * Z * xfs_bmbt_irec;
  (* a block of the summary file through the buffer cache: an error, or
     the summary words of the block *)
  rtsummary_block : Z -> Z * list byte;
  (* the error of a load or store of [count] bytes at [pos], 0 for none *)
  xfile_access_error : Z -> Z -> Z;
  (* the fork scrubber *)
  xchk_metadata_inode_forks : scrubM Z
}.

Section Checker.
Context {env : xfs_env}.
Local Open Scope scrub_scope.

(** Modelled from the spec: [xfile_load] and [xfile_store] (scrub/xfile.c)
    are not in the source file; the scratch store is byte addressable, with
    loads and stores at any offset, and starts zero-filled.  A failed load
    leaves the caller's buffer as it was. *)
Definition xfile_load (buf : list byte) (count pos : Z) : scrubM (Z * list byte) :=
  fun sc =>
    let error := xfile_access_error pos count in
    if error =? 0 then ((0, xfile_read (sc_xfile sc) (Z.to_nat count) pos), sc)
    else ((error, buf), sc).

Definition xfile_store (buf : list byte) (count pos : Z) : scrubM Z :=
  fun sc =>
    let error := xfile_access_error pos count in
    if error =? 0 then
      (0, set_xfile (xfile_write (sc_xfile sc) (firstn (Z.to_nat count) buf) pos) sc)
    else (error, sc).

(** Modelled from the spec: [xfs_rtsummary_read_buf] and
    [xfs_rsumblock_infoptr] (xfs_rtbitmap.c) are not in the source file;
    one block of the summary on disk is read through the buffer cache and
    its summary words handed over. *)
Definition xfs_rtsummary_read_buf (off : Z) : scrubM (Z * list byte) :=
  fun sc => (rtsummary_block off, log_event (Ev_rtsummary_read_buf off) sc).

(** Modelled from the spec: [xfs_rtalloc_query_all] (xfs_rtbitmap.c) is not
    in the source file; it hands each free extent of the bitmap to the
    visitor, in ascending order, stops at the first visitor that does not
    return 0 and returns what it returned; a failure of its own ends the
    walk after the records it could read. *)
Fixpoint rtalloc_query_records (fn : xfs_rtgroup -> xfs_rtalloc_rec -> scrubM Z)
    (g : xfs_rtgroup) (recs : list xfs_rtalloc_rec) : scrubM Z :=
  match recs with
  | [] => ret 0
  | rec :: rest =>
      let* error := fn g rec in
      if negb (error =? 0) then ret error
      else rtalloc_query_records fn g rest
  end.

Definition xfs_rtalloc_query_all (g : xfs_rtgroup)
    (fn : xfs_rtgroup -> xfs_rtalloc_rec -> scrubM Z) : scrubM Z :=
  let* error := rtalloc_query_records fn g (rtg_free g) in
  if negb (error =? 0) then ret error else ret (rtg_query_error g).

(** *** Helper functions to record suminfo words in an xfile *)

Definition sizeof_suminfo_raw : Z := 4.

(** [sumoff << XFS_WORDLOG] and [nr_words << XFS_WORDLOG]: the operands are
    an [xfs_rtsumoff_t] (a [uint32_t], declared in xfs_types.h, outside this
    file) and an [unsigned int], so both shifts are done in 32 bits. *)
Definition sum_pos (sumoff : Z) : Z := u32 (Z.shiftl sumoff XFS_WORDLOG).
Definition words_len (nr_words : Z) : Z := u32 (Z.shiftl nr_words XFS_WORDLOG).

Definition xfsum_load (sumoff : Z) (rawinfo : xfs_suminfo_raw)
    : scrubM (Z * xfs_suminfo_raw) :=
  let* '(error, buf) := xfile_load (raw_to_bytes rawinfo) sizeof_suminfo_raw
                          (sum_pos sumoff) in
  ret (error, raw_of_bytes buf).

Definition xfsum_store (sumoff : Z) (rawinfo : xfs_suminfo_raw) : scrubM Z :=
  xfile_store (raw_to_bytes rawinfo) sizeof_suminfo_raw (sum_pos sumoff).

Definition xfsum_copyout (sumoff : Z) (rawinfo : list byte) (nr_words : Z)
    : scrubM (Z * list byte) :=
  xfile_load rawinfo (words_len nr_words) (sum_pos sumoff).

(** *** Recomputing the summary *)

(** The size order and the bitmap block of a free extent, and the summary
    word they select (the first statements of [xchk_rtsum_record_free]);
    [lenlog] is an [unsigned int] and [offs] an [xfs_rtsumoff_t], 32 bits
    both. *)
Definition rtsum_rbmoff (rec : xfs_rtalloc_rec) : Z :=
  xfs_rtx_to_rbmblock mp (ar_startext rec).

Definition rtsum_lenlog (rec : xfs_rtalloc_rec) : Z :=
  u32 (xfs_highbit64 (ar_extcount rec)).

Definition rtsum_offs (rec : xfs_rtalloc_rec) : Z :=
  u32 (xfs_rtsumoffs mp (rtsum_lenlog rec) (rtsum_rbmoff rec)).

(** Update the summary file to reflect the free extent that we've
    accumulated. *)
Definition xchk_rtsum_record_free (g : xfs_rtgroup) (rec : xfs_rtalloc_rec)
    : scrubM Z :=
  let* '(stop, error) := xchk_should_terminate 0 in
  if stop then ret error else
  (* Compute the relevant location in the rtsum file. *)
  let rbmoff := rtsum_rbmoff rec in
  let lenlog := rtsum_lenlog rec in
  let offs := u32 (xfs_rtsumoffs mp lenlog rbmoff) in
  let rtbno := xfs_rtx_to_rtb g (ar_startext rec) in
  let rtlen := xfs_rtxlen_to_extlen mp (ar_extcount rec) in
  if negb (xfs_verify_rtbext mp rtbno rtlen) then
    let* _ := xchk_ino_xref_set_corrupt (i_ino (rtg_bitmap g)) in
    ret (- EFSCORRUPTED)
  else
  (* Bump the summary count. *)
  let* '(error, v) := xfsum_load offs raw_zero in
  if negb (error =? 0) then ret error else
  let '(value, v) := xchk_rtsum_inc cpu (m_has_rtgroups mp) v in
  xfsum_store offs v.

(** Compute the realtime summary from the realtime bitmap. *)
Definition xchk_rtsum_compute : scrubM Z :=
  (* If the bitmap size doesn't match the computed size, bail. *)
  if negb (XFS_FSB_TO_B mp (xfs_rtbitmap_blockcount mp)
           =? i_disk_size (rtg_bitmap rtg))
  then ret (- EFSCORRUPTED)
  else xfs_rtalloc_query_all rtg xchk_rtsum_record_free.

(** *** Comparing with the summary on disk *)

(** How a loop inside a function ends: by falling out of the loop, or by a
    [return] with a value. *)
Inductive loop_exit := Fallthrough | Return (r : Z).

(** The [while (off < endoff)] loop of [xchk_rtsum_compare] over the
    mappings of the summary file.  Nothing in the file bounds the number of
    iterations (the loop advances by the length of the mapping it was
    given), so the loop runs on [fuel]: [None] when the iterations allowed
    are used up before the loop ends. *)
Fixpoint xchk_rtsum_compare_maps (fuel : nat) (endoff off error : Z)
    : scrubM (option loop_exit) :=
  if off <? endoff then
    match fuel with
    | O => ret None
    | S fuel' =>
        let* '(stop, error) := xchk_should_terminate error in
        if stop then ret (Some (Return error)) else
        let* flags := gets sm_flags in
        if negb (Z.land flags XFS_SCRUB_OFLAG_CORRUPT =? 0)
        then ret (Some (Return 0)) else
        (* Make sure we have a written extent. *)
        let* ip := gets sc_ip in
        let '(error, nmap, map) := xfs_bmapi_read ip off (endoff - off) in
        let* '(ok, error) := xchk_fblock_process_error XFS_DATA_FORK off error in
        if negb ok then ret (Some (Return error)) else
        if negb (nmap =? 1) || negb (xfs_bmap_is_written_extent map) then
          let* _ := xchk_fblock_set_corrupt XFS_DATA_FORK off in
          ret (Some (Return 0))
        else
          xchk_rtsum_compare_maps fuel' endoff (off + br_blockcount map) error
    end
  else ret (Some Fallthrough).

(** The [for (off = 0; off < endoff; off++)] loop of [xchk_rtsum_compare],
    [n] blocks being left to compare. *)
Fixpoint xchk_rtsum_compare_blocks (n : nat) (off sumoff : Z) : scrubM Z :=
  match n with
  | O => ret 0
  | S n' =>
      (* Read a block's worth of ondisk rtsummary file. *)
      let* '(error, ondisk_info) := xfs_rtsummary_read_buf off in
      let* '(ok, error) := xchk_fblock_process_error XFS_DATA_FORK off error in
      if negb ok then ret error else
      (* Read a block's worth of computed rtsummary file. *)
      let* rts := gets sc_buf in
      let* '(error, w) := xfsum_copyout sumoff (words rts) (m_blockwsize mp) in
      let* _ := modify (set_buf (set_words w rts)) in
      if negb (error =? 0) then ret error else
      if negb (memcmp ondisk_info w
                 (Z.to_nat (words_len (m_blockwsize mp))) =? 0)
      then
        let* _ := xchk_fblock_set_corrupt XFS_DATA_FORK off in
        ret error
      else
        xchk_rtsum_compare_blocks n' (off + 1) (u32 (sumoff + m_blockwsize mp))
  end.

(** Compare the rtsummary file against the one we computed. *)
Definition xchk_rtsum_compare (fuel : nat) : scrubM (option Z) :=
  let* ip := gets sc_ip in
  (* Mappings may not cross or lie beyond EOF. *)
  let endoff := XFS_B_TO_FSB mp (i_disk_size ip) in
  if xfs_iext_lookup_extent ip endoff then
    let* _ := xchk_fblock_set_corrupt XFS_DATA_FORK endoff in
    ret (Some 0)
  else
  let* exit := xchk_rtsum_compare_maps fuel endoff 0 0 in
  match exit with
  | None => ret None
  | Some (Return r) => ret (Some r)
  | Some Fallthrough =>
      let* r := xchk_rtsum_compare_blocks (Z.to_nat endoff) 0 0 in
      ret (Some r)
  end.

(** *** Scrub the realtime summary *)

(** The end of [xchk_rtsummary]: the fork scrubber, the recomputation and
    the comparison. *)
Definition xchk_rtsummary_recompute (fuel : nat) : scrubM (option Z) :=
  (* Invoke the fork scrubber. *)
  let* error := xchk_metadata_inode_forks in
  let* flags := gets sm_flags in
  if negb (error =? 0) || negb (Z.land flags XFS_SCRUB_OFLAG_CORRUPT =? 0)
  then ret (Some error) else
  (* Construct the new summary file from the rtbitmap. *)
  let* error := xchk_rtsum_compute in
  if error =? - EFSCORRUPTED then
    (* EFSCORRUPTED means the rtbitmap is corrupt, which is an xref error
       since we're checking the summary file. *)
    let* _ := xchk_ino_set_corrupt (i_ino (rtg_bitmap rtg)) in
    ret (Some 0)
  else if negb (error =? 0) then ret (Some error)
  else
  (* Does the computed summary file match the actual rtsummary file? *)
  xchk_rtsum_compare fuel.

(** The middle of [xchk_rtsummary]: the two checks of the length of the
    summary file. *)
Definition xchk_rtsummary_file_length (fuel : nat) : scrubM (option Z) :=
  let rsumip := rtg_summary rtg in
  let* rts := gets sc_buf in
  (* The summary file length must be aligned to an fsblock. *)
  if negb (Z.land (i_disk_size rsumip) (m_blockmask mp) =? 0) then
    let* _ := xchk_ino_set_corrupt (i_ino rsumip) in
    ret (Some 0)
  (* Is the summary file itself large enough to handle the rt volume? *)
  else if i_disk_size rsumip <? XFS_FSB_TO_B mp (rsumblocks rts) then
    let* _ := xchk_ino_set_corrupt (i_ino rsumip) in
    ret (Some 0)
  else xchk_rtsummary_recompute fuel.

Definition xchk_rtsummary (fuel : nat) : scrubM (option Z) :=
  let rbmip := rtg_bitmap rtg in
  let rsumip := rtg_summary rtg in
  let* rts := gets sc_buf in
  (* Is sb_rextents correct? *)
  if negb (sb_rextents mp =? rextents rts) then
    let* _ := xchk_ino_set_corrupt (i_ino rbmip) in
    ret (Some 0)
  (* Is m_rsumlevels correct? *)
  else if negb (m_rsumlevels mp =? rsumlevels rts) then
    let* _ := xchk_ino_set_corrupt (i_ino rsumip) in
    ret (Some 0)
  (* Is m_rsumsize correct? *)
  else if negb (m_rsumblocks mp =? rsumblocks rts) then
    let* _ := xchk_ino_set_corrupt (i_ino rsumip) in
    ret (Some 0)
  else xchk_rtsummary_file_length fuel.

End Checker.

(** *** Set us up to check the rtsummary file *)

(** What the calls of [xchk_setup_rtsummary] into the rest of the kernel
    answer: whether the allocation fails, and the error of each call. *)
Record xchk_setup_outcomes := {
  kvzalloc_fails : bool;
  xchk_rtgroup_init_error : Z;
  xchk_could_repair : bool;
  xrep_setup_rtsummary_error : Z;
  xrep_setup_rtsummary_resblks : Z;
  xfile_create_error : Z;
  xchk_trans_alloc_error : Z;
  xchk_install_live_inode_error : Z;
  xchk_ino_dqattach_error : Z
}.

Section Setup.
Context {env : xfs_env}.
Local Open Scope scrub_scope.

(** [kvzalloc(struct_size(rts, words, mp->m_blockwsize))]: all fields zero,
    and a block's worth of zeroed summary words. *)
Definition rts_zalloc : xchk_rtsummary_buf :=
  {| rextents := 0; rbmblocks := 0; rsumblocks := 0; rsumlevels := 0;
     resblks := 0;
     words := repeat x00 (Z.to_nat (Z.shiftl (m_blockwsize mp) XFS_WORDLOG)) |}.

Definition set_resblks (r : Z) (b : xchk_rtsummary_buf) : xchk_rtsummary_buf :=
  {| rextents := rextents b; rbmblocks := rbmblocks b; rsumblocks := rsumblocks b;
     rsumlevels := rsumlevels b; resblks := r; words := words b |}.

Definition set_geometry (b : xchk_rtsummary_buf) : xchk_rtsummary_buf :=
  {| rextents := xfs_blen_to_rtbxlen mp (sb_rblocks mp);
     rbmblocks := xfs_rtbitmap_blockcount mp;
     rsumblocks := fst (xfs_rtsummary_blockcount mp);
     rsumlevels := snd (xfs_rtsummary_blockcount mp);
     resblks := resblks b; words := words b |}.

(** The intent-drain gate at the top of the function touches nothing the
    checker reads and is left out. *)
Definition xchk_setup_rtsummary (o : xchk_setup_outcomes) : scrubM Z :=
  if kvzalloc_fails o then ret (- ENOMEM) else
  let* _ := modify (set_buf rts_zalloc) in
  if negb (xchk_rtgroup_init_error o =? 0) then ret (xchk_rtgroup_init_error o) else
  let* error :=
    (if xchk_could_repair o then
       let* _ := modify (fun sc =>
                   set_buf (set_resblks (xrep_setup_rtsummary_resblks o) (sc_buf sc)) sc) in
       ret (xrep_setup_rtsummary_error o)
     else ret 0) in
  if negb (error =? 0) then ret error else
  (* Create an xfile to construct a new rtsummary file. *)
  if negb (xfile_create_error o =? 0) then ret (xfile_create_error o) else
  let* _ := modify (set_xfile ∅) in
  if negb (xchk_trans_alloc_error o =? 0) then ret (xchk_trans_alloc_error o) else
  if negb (xchk_install_live_inode_error o =? 0)
  then ret (xchk_install_live_inode_error o) else
  let* _ := modify (set_ip (rtg_summary rtg)) in
  if negb (xchk_ino_dqattach_error o =? 0) then ret (xchk_ino_dqattach_error o) else
  (* Now that we've locked the rtbitmap and rtsummary, it is safe to compute
     and check the geometry values. *)
  let* _ :=
    (if negb (sb_rblocks mp =? 0) then
       modify (fun sc => set_buf (set_geometry (sc_buf sc)) sc)
     else ret tt) in
  ret 0.

End Setup.

(** ** Notions the properties are stated with *)

Section Views.
Context {env : xfs_env}.

(** The summary word at offset [w] of a scratch file, and the counter it
    holds. *)
Definition xfile_word (xf : gmap Z byte) (w : Z) : xfs_suminfo_raw :=
  raw_of_bytes (xfile_read xf 4 (Z.shiftl w XFS_WORDLOG)).

Definition sum_value (xf : gmap Z byte) (w : Z) : Z :=
  suminfo_value cpu (m_has_rtgroups mp) (xfile_word xf w).

(** The summary word that the 32-bit byte position of [sumoff] falls on,
    and the summary word of a record. *)
Definition sum_word (sumoff : Z) : Z := sumoff mod 2 ^ 30.

Definition rtsum_word (rec : xfs_rtalloc_rec) : Z := sum_word (rtsum_offs rec).

(** Direct counting: how many of the records have a coordinate that maps to
    the summary word [w]. *)
Fixpoint rtsum_count (recs : list xfs_rtalloc_rec) (w : Z) : Z :=
  match recs with
  | [] => 0
  | rec :: rest => (if rtsum_word rec =? w then 1 else 0) + rtsum_count rest w
  end.

(** A record that the range validation of [xchk_rtsum_record_free] lets
    through. *)
Definition rec_in_range (g : xfs_rtgroup) (rec : xfs_rtalloc_rec) : bool :=
  xfs_verify_rtbext mp (xfs_rtx_to_rtb g (ar_startext rec))
    (xfs_rtxlen_to_extlen mp (ar_extcount rec)).

(** The load and the store of the summary word of a record both succeed. *)
Definition rec_io_ok (rec : xfs_rtalloc_rec) : Prop :=
  xfile_access_error (sum_pos (rtsum_offs rec)) sizeof_suminfo_raw = 0.

(** What one record does to the scratch file when nothing stops it. *)
Definition rtsum_bump (xf : gmap Z byte) (rec : xfs_rtalloc_rec) : gmap Z byte :=
  xfile_write xf
    (raw_to_bytes
       (snd (xchk_rtsum_inc cpu (m_has_rtgroups mp) (xfile_word xf (rtsum_word rec)))))
    (sum_pos (rtsum_offs rec)).

(** The state after the records [recs] went into the scratch file. *)
Definition scan_state (sc : xfs_scrub) (recs : list xfs_rtalloc_rec) : xfs_scrub :=
  set_xfile (fold_left rtsum_bump recs (sc_xfile sc))
    (set_signals (drop (length recs) (sc_signals sc)) sc).

(** The state after one checkpoint at which nobody cancelled. *)
Definition after_checkpoint (sc : xfs_scrub) : xfs_scrub :=
  set_signals (drop 1 (sc_signals sc)) sc.

(** No cancellation at the next [n] checkpoints. *)
Definition quiet (n : nat) (signals : list bool) : Prop :=
  Forall (fun b => b = false) (firstn n signals).

(** The number of blocks of the summary file, [endoff] in
    [xchk_rtsum_compare]. *)
Definition rtsum_endoff (sc : xfs_scrub) : Z :=
  XFS_B_TO_FSB mp (i_disk_size (sc_ip sc)).

(** The reads of the blocks 0 to [k], in order. *)
Definition reads_upto (k : Z) : list event :=
  map (fun i => Ev_rtsummary_read_buf (Z.of_nat i)) (seq 0 (S (Z.to_nat k))).

(** The mappings of the summary file from block [off] on: [n] written
    mappings, each read without error and starting where the one before
    ends, the last ending at [off']. *)
Inductive written_chain (ip : xfs_inode) (endoff : Z) : Z -> nat -> Z -> Prop :=
| chain_here off : written_chain ip endoff off O off
| chain_step off n off' map :
    off < endoff ->
    xfs_bmapi_read ip off (endoff - off) = (0, 1, map) ->
    xfs_bmap_is_written_extent map = true ->
    written_chain ip endoff (off + br_blockcount map) n off' ->
    written_chain ip endoff off (S n) off'.

(** The summary words of block [off] as computed: what [xfsum_copyout]
    reads for that block. *)
Definition computed_block (xf : gmap Z byte) (off : Z) : list byte :=
  xfile_read xf (Z.to_nat (words_len (m_blockwsize mp)))
    (sum_pos (u32 (off * m_blockwsize mp))).

(** The state after the [k] blocks from [off] on were read and found the
    same: each read is in the trace and [rts->words] holds the block that
    was computed last. *)
Fixpoint compared_state (sc : xfs_scrub) (off : Z) (k : nat) : xfs_scrub :=
  match k with
  | O => sc
  | S k' =>
      compared_state
        (set_buf (set_words (computed_block (sc_xfile sc) off) (sc_buf sc))
           (log_event (Ev_rtsummary_read_buf off) sc))
        (off + 1) k'
  end.

(** Block [off] can be read on both sides. *)
Definition block_readable (off : Z) : Prop :=
  fst (rtsummary_block off) = 0
  /\ xfile_access_error (sum_pos (u32 (off * m_blockwsize mp)))
       (words_len (m_blockwsize mp)) = 0.

(** Block [off] on disk has the bytes that were computed for it. *)
Definition block_same (xf : gmap Z byte) (off : Z) : Prop :=
  memcmp (snd (rtsummary_block off)) (computed_block xf off)
    (Z.to_nat (words_len (m_blockwsize mp))) = 0.

(** All five geometry checks of [xchk_rtsummary] pass. *)
Definition geometry_ok (sc : xfs_scrub) : Prop :=
  sb_rextents mp = rextents (sc_buf sc)
  /\ m_rsumlevels mp = rsumlevels (sc_buf sc)
  /\ m_rsumblocks mp = rsumblocks (sc_buf sc)
  /\ Z.land (i_disk_size (rtg_summary rtg)) (m_blockmask mp) = 0
  /\ XFS_FSB_TO_B mp (rsumblocks (sc_buf sc)) <= i_disk_size (rtg_summary rtg).

(** The geometry validation in the words of the specification: five checks
    in order, the first that fails naming the inode that is corrupt. *)
Definition geometry_verdict (sc : xfs_scrub) : option Z :=
  let rts := sc_buf sc in
  let rsumip := rtg_summary rtg in
  let blocksize := 2 ^ sb_blocklog mp in
  if negb (sb_rextents mp =? rextents rts) then Some (i_ino (rtg_bitmap rtg))
  else if negb (m_rsumlevels mp =? rsumlevels rts) then Some (i_ino rsumip)
  else if negb (m_rsumblocks mp =? rsumblocks rts) then Some (i_ino rsumip)
  else if negb (i_disk_size rsumip mod blocksize =? 0) then Some (i_ino rsumip)
  else if i_disk_size rsumip <? rsumblocks rts * blocksize then Some (i_ino rsumip)
  else None.

End Views.

(** ** Sample file systems

    A small realtime volume to run the checker on: 8 allocation units, one
    bitmap block of 32 bits, blocks of 4 bytes (one summary word each),
    hence 4 summary levels in 4 summary blocks.  The summary file is four
    single-block mappings; [written] tells which of them are written, the
    others are holes.  [beyond] tells whether a mapping lies at or after
    the end of the file. *)

Definition demo_mp : xfs_mount :=
  {| sb_rblocks := 8; sb_rextents := 8; sb_rbmblocks := 1; sb_blocklog := 2;
     m_rsumlevels := 4; m_rsumblocks := 4; m_blockwsize := 1; m_blockmask := 3;
     m_rtx_per_rbmblock := 32; m_has_rtgroups := false |}.

Definition demo_rbmip : xfs_inode := {| i_ino := 129; i_disk_size := 4 |}.
Definition demo_rsumip : xfs_inode := {| i_ino := 130; i_disk_size := 16 |}.

Definition demo_rtg (free : list xfs_rtalloc_rec) : xfs_rtgroup :=
  {| rtg_bitmap := demo_rbmip; rtg_summary := demo_rsumip;
     rtg_free := free; rtg_query_error := 0 |}.

Definition demo_verify_rtbext (m : xfs_mount) (rtbno rtlen : Z) : bool :=
  (0 <? rtlen) && (0 <=? rtbno) && (rtbno + rtlen <=? sb_rblocks m).

Definition demo_bmapi_read (written : Z -> bool) (ip : xfs_inode) (off len : Z)
    : Z * Z * xfs_bmbt_irec :=
  (0, 1, {| br_startoff := off;
            br_startblock := if written off then 100 + off else HOLESTARTBLOCK;
            br_blockcount := 1; br_state := XFS_EXT_NORM |}).

Definition demo_env (m : xfs_mount) (free : list xfs_rtalloc_rec)
    (beyond : bool) (written : Z -> bool) (ondisk : Z -> Z * list byte) : xfs_env :=
  {| cpu := LittleEndian;
     mp := m;
     rtg := demo_rtg free;
     xfs_blen_to_rtbxlen := fun _ blen => blen;
     xfs_rtbitmap_blockcount := fun m =>
       (sb_rextents m + m_rtx_per_rbmblock m - 1) / m_rtx_per_rbmblock m;
     xfs_rtsummary_blockcount := fun m =>
       let levels := Z.log2 (sb_rextents m) + 1 in
       ((levels * sb_rbmblocks m + m_blockwsize m - 1) / m_blockwsize m, levels);
     xfs_rtx_to_rtb := fun _ rtx => rtx;
     xfs_rtxlen_to_extlen := fun _ len => len;
     xfs_verify_rtbext := demo_verify_rtbext;
     xfs_iext_lookup_extent := fun _ _ => beyond;
     xfs_bmapi_read := demo_bmapi_read written;
     rtsummary_block := ondisk;
     xfile_access_error := fun _ _ => 0;
     xchk_metadata_inode_forks := ret 0 |}.

(** The summary on disk of the volume whose only free extent starts at unit
    0 and is 4 units long: one extent of order 2 in bitmap block 0, that is
    word 2, which is block 2. *)
Definition demo_ondisk (off : Z) : Z * list byte :=
  (0, if off =? 2 then [x01; x00; x00; x00] else [x00; x00; x00; x00]).

Definition demo_free : list xfs_rtalloc_rec :=
  [{| ar_startext := 0; ar_extcount := 4 |}].

(** The sample volume as described: its free extent, nothing beyond the end
    of the summary file, every block written, the matching summary on
    disk. *)
Definition demo_env1 : xfs_env :=
  demo_env demo_mp demo_free false (fun _ => true) demo_ondisk.

Definition demo_rec_a : xfs_rtalloc_rec := {| ar_startext := 0; ar_extcount := 4 |}.
Definition demo_rec_b : xfs_rtalloc_rec := {| ar_startext := 6; ar_extcount := 2 |}.

(** The scrub context once set up for the sample volume. *)
Definition demo_sc (signals : list bool) : xfs_scrub :=
  {| sc_ip := demo_rsumip; sm_flags := 0; sc_xfile := ∅;
     sc_buf := {| rextents := 8; rbmblocks := 1; rsumblocks := 4; rsumlevels := 4;
                  resblks := 0; words := [x00; x00; x00; x00] |};
     sc_signals := signals; sc_trace := [] |}.

(** Variations of the sample volume. *)

(** The summary on disk is wrong in block 1. *)
Definition demo_ondisk_bad (off : Z) : Z * list byte :=
  (0, if off =? 1 then [x07; x00; x00; x00] else [x00; x00; x00; x00]).

Definition demo_env_bad_block : xfs_env :=
  demo_env demo_mp [] false (fun _ => true) demo_ondisk_bad.

(** A second free extent that runs past the end of the volume. *)
Definition demo_rec_bad : xfs_rtalloc_rec := {| ar_startext := 6; ar_extcount := 4 |}.

Definition demo_env_bad_extent : xfs_env :=
  demo_env demo_mp [demo_rec_a; demo_rec_bad] false (fun _ => true) demo_ondisk.

(** Two free extents in range. *)
Definition demo_env_two : xfs_env :=
  demo_env demo_mp [demo_rec_a; demo_rec_b] false (fun _ => true) demo_ondisk.

(** A mapping beyond the end of the summary file; a hole at block 2. *)
Definition demo_env_beyond : xfs_env :=
  demo_env demo_mp demo_free true (fun _ => true) demo_ondisk.

Definition demo_env_hole : xfs_env :=
  demo_env demo_mp demo_free false (fun off => off <? 2) demo_ondisk.

(** The superblock counts 40 allocation units: two bitmap blocks, where the
    bitmap file has one. *)
Definition demo_mp_40 : xfs_mount :=
  {| sb_rblocks := 40; sb_rextents := 40; sb_rbmblocks := 2; sb_blocklog := 2;
     m_rsumlevels := 6; m_rsumblocks := 12; m_blockwsize := 1; m_blockmask := 3;
     m_rtx_per_rbmblock := 32; m_has_rtgroups := false |}.

Definition demo_env_short_bitmap : xfs_env :=
  demo_env demo_mp_40 demo_free false (fun _ => true) demo_ondisk.

(** No realtime blocks, yet the superblock counts 8 allocation units. *)
Definition demo_mp_empty : xfs_mount :=
  {| sb_rblocks := 0; sb_rextents := 8; sb_rbmblocks := 0; sb_blocklog := 2;
     m_rsumlevels := 0; m_rsumblocks := 0; m_blockwsize := 1; m_blockmask := 3;
     m_rtx_per_rbmblock := 32; m_has_rtgroups := false |}.

Definition demo_env_empty : xfs_env :=
  demo_env demo_mp_empty [] false (fun _ => true) demo_ondisk.

(** Every call of the setup succeeds; no repair. *)
Definition demo_setup_ok : xchk_setup_outcomes :=
  {| kvzalloc_fails := false; xchk_rtgroup_init_error := 0;
     xchk_could_repair := false; xrep_setup_rtsummary_error := 0;
     xrep_setup_rtsummary_resblks := 0; xfile_create_error := 0;
     xchk_trans_alloc_error := 0; xchk_install_live_inode_error := 0;
     xchk_ino_dqattach_error := 0 |}.










(** ** Notions of the further properties *)

Section MoreViews.
Context {env : xfs_env}.

(** What a visit of [xchk_rtsum_record_free] can do to the scrub context,
    whatever the record and whatever happens. *)
Definition scan_frame (g : xfs_rtgroup) (sc sc' : xfs_scrub) : Prop :=
  sc_ip sc' = sc_ip sc
  /\ sc_buf sc' = sc_buf sc
  /\ Z.land (sm_flags sc') XFS_SCRUB_OFLAG_CORRUPT
     = Z.land (sm_flags sc) XFS_SCRUB_OFLAG_CORRUPT
  /\ ((sm_flags sc' = sm_flags sc /\ sc_trace sc' = sc_trace sc)
      \/ (sm_flags sc' = Z.lor (sm_flags sc) XFS_SCRUB_OFLAG_XCORRUPT
          /\ sc_trace sc' = sc_trace sc ++ [Ev_ino_xref_set_corrupt (i_ino (rtg_bitmap g))])).

End MoreViews.

(** What the comparator can do to the scrub context: it may poll, report,
    read blocks into its buffer and set the corrupt flag; it leaves the
    scratch file, the inode under check and the recomputed geometry
    alone. *)
Definition compare_frame (sc sc' : xfs_scrub) : Prop :=
  sc_xfile sc' = sc_xfile sc
  /\ sc_ip sc' = sc_ip sc
  /\ (sm_flags sc' = sm_flags sc
      \/ sm_flags sc' = Z.lor (sm_flags sc) XFS_SCRUB_OFLAG_CORRUPT)
  /\ rextents (sc_buf sc') = rextents (sc_buf sc)
  /\ rbmblocks (sc_buf sc') = rbmblocks (sc_buf sc)
  /\ rsumblocks (sc_buf sc') = rsumblocks (sc_buf sc)
  /\ rsumlevels (sc_buf sc') = rsumlevels (sc_buf sc).

(** The first error of a run of calls, 0 when none fails. *)
Fixpoint first_error (errors : list Z) : Z :=
  match errors with
  | [] => 0
  | e :: rest => if e =? 0 then first_error rest else e
  end.

(** The errors of the calls of [xchk_setup_rtsummary] after the
    allocation, in the order of the calls; the repair setup only counts
    when a repair could follow. *)
Definition setup_errors (o : xchk_setup_outcomes) : list Z :=
  [xchk_rtgroup_init_error o;
   if xchk_could_repair o then xrep_setup_rtsummary_error o else 0;
   xfile_create_error o;
   xchk_trans_alloc_error o;
   xchk_install_live_inode_error o;
   xchk_ino_dqattach_error o].

(** Further variations of the sample volume: no free extent and an
    all-zero summary on disk; a scratch file that fails at byte 4, which is
    summary word 1 and, with one word a block, block 1. *)
Definition demo_env_zero : xfs_env :=
  demo_env demo_mp [] false (fun _ => true) (fun _ => (0, [x00; x00; x00; x00])).

Definition demo_env_xfile_fails : xfs_env :=
  {| cpu := LittleEndian;
     mp := demo_mp;
     rtg := demo_rtg [demo_rec_a; demo_rec_b];
     xfs_blen_to_rtbxlen := fun _ blen => blen;
     xfs_rtbitmap_blockcount := fun _ => 1;
     xfs_rtsummary_blockcount := fun _ => (4, 4);
     xfs_rtx_to_rtb := fun _ rtx => rtx;
     xfs_rtxlen_to_extlen := fun _ len => len;
     xfs_verify_rtbext := demo_verify_rtbext;
     xfs_iext_lookup_extent := fun _ _ => false;
     xfs_bmapi_read := demo_bmapi_read (fun _ => true);
     rtsummary_block := demo_ondisk;
     xfile_access_error := fun pos _ => if pos =? 4 then - ENOMEM else 0;
     xchk_metadata_inode_forks := ret 0 |}.
(** *** Facts about bytes and words *)

Lemma byte_to_Z_range (b : byte) : 0 <= byte_to_Z b < 256.
Proof.
  unfold byte_to_Z. pose proof (Byte.to_N_bounded b) as H.
  split; [apply N2Z.is_nonneg|].
  change 256 with (Z.of_N 256). apply N2Z.inj_lt. lia.
Qed.

Lemma byte_to_of_Z (z : Z) : byte_to_Z (byte_of_Z z) = z mod 256.
Proof.
  unfold byte_to_Z, byte_of_Z.
  assert (Hr : 0 <= z mod 256 < 256) by (apply Z.mod_pos_bound; lia).
  destruct (Byte.of_N (Z.to_N (z mod 256))) as [b|] eqn:E.
  - apply Byte.to_of_N in E. rewrite E. rewrite Z2N.id; lia.
  - apply Byte.of_N_None_iff in E. lia.
Qed.

Lemma byte_of_to_Z (b : byte) : byte_of_Z (byte_to_Z b) = b.
Proof.
  unfold byte_of_Z. pose proof (byte_to_Z_range b) as Hr.
  rewrite Z.mod_small by lia. unfold byte_to_Z.
  rewrite N2Z.id. now rewrite Byte.of_to_N.
Qed.

Lemma byte_of_Z_mod (z : Z) : byte_of_Z (z mod 256) = byte_of_Z z.
Proof. unfold byte_of_Z. now rewrite Z.mod_mod by lia. Qed.

Lemma u32_range (z : Z) : 0 <= u32 z < 2 ^ 32.
Proof. unfold u32. apply Z.mod_pos_bound. lia. Qed.

Lemma be32_to_cpu_range (v : xfs_suminfo_raw) : 0 <= be32_to_cpu v < 2 ^ 32.
Proof.
  unfold be32_to_cpu.
  pose proof (byte_to_Z_range (raw0 v)). pose proof (byte_to_Z_range (raw1 v)).
  pose proof (byte_to_Z_range (raw2 v)). pose proof (byte_to_Z_range (raw3 v)).
  lia.
Qed.

Lemma le32_to_cpu_range (v : xfs_suminfo_raw) : 0 <= le32_to_cpu v < 2 ^ 32.
Proof.
  unfold le32_to_cpu.
  pose proof (byte_to_Z_range (raw0 v)). pose proof (byte_to_Z_range (raw1 v)).
  pose proof (byte_to_Z_range (raw2 v)). pose proof (byte_to_Z_range (raw3 v)).
  lia.
Qed.

Lemma u32_bytes (z : Z) :
  0 <= z < 2 ^ 32 ->
  ((z / 2 ^ 24) mod 256) * 2 ^ 24 + ((z / 2 ^ 16) mod 256) * 2 ^ 16
  + ((z / 2 ^ 8) mod 256) * 2 ^ 8 + z mod 256 = z.
Proof.
  intros Hz.
  change (2 ^ 24) with 16777216. change (2 ^ 16) with 65536.
  change (2 ^ 8) with 256. change (2 ^ 32) with 4294967296 in Hz.
  Z.div_mod_to_equations. lia.
Qed.

Lemma be32_to_cpu_to_be32 (z : Z) :
  0 <= z < 2 ^ 32 -> be32_to_cpu (cpu_to_be32 z) = z.
Proof.
  intros Hz. unfold be32_to_cpu, cpu_to_be32. simpl.
  rewrite !byte_to_of_Z. now apply u32_bytes.
Qed.

Lemma le32_to_cpu_to_le32 (z : Z) :
  0 <= z < 2 ^ 32 -> le32_to_cpu (cpu_to_le32 z) = z.
Proof.
  intros Hz. unfold le32_to_cpu, cpu_to_le32. simpl.
  rewrite !byte_to_of_Z. now apply u32_bytes.
Qed.

Lemma raw_old_set_old (cpu : endianness) (z : Z) :
  0 <= z < 2 ^ 32 -> raw_old cpu (raw_set_old cpu z) = z.
Proof.
  destruct cpu; simpl; [apply le32_to_cpu_to_le32 | apply be32_to_cpu_to_be32].
Qed.

Lemma raw_old_range (cpu : endianness) (v : xfs_suminfo_raw) :
  0 <= raw_old cpu v < 2 ^ 32.
Proof. destruct cpu; [apply le32_to_cpu_range | apply be32_to_cpu_range]. Qed.

Lemma suminfo_value_range cpu g v : 0 <= suminfo_value cpu g v < 2 ^ 32.
Proof.
  unfold suminfo_value. destruct g; [apply be32_to_cpu_range | apply raw_old_range].
Qed.

(** One increment adds one to the counter, in 32 bits, under either
    encoding. *)
Lemma suminfo_value_inc cpu g v :
  suminfo_value cpu g (snd (xchk_rtsum_inc cpu g v))
  = u32 (suminfo_value cpu g v + 1).
Proof.
  unfold xchk_rtsum_inc, suminfo_value, be32_add_cpu. destruct g; simpl.
  - apply be32_to_cpu_to_be32, u32_range.
  - apply raw_old_set_old, u32_range.
Qed.

Lemma raw_to_of_bytes (v : xfs_suminfo_raw) : raw_of_bytes (raw_to_bytes v) = v.
Proof. now destruct v. Qed.



(** *** The scratch file *)

Lemma xfile_byte_write (buf : list byte) :
  forall (xf : gmap Z byte) (pos k : Z),
    xfile_byte (xfile_write xf buf pos) k
    = if decide (pos <= k < pos + Z.of_nat (length buf))
      then nth (Z.to_nat (k - pos)) buf x00
      else xfile_byte xf k.
Proof.
  induction buf as [|b rest IH]; intros xf pos k; simpl xfile_write.
  - destruct (decide _) as [H|H]; [simpl in H; lia | reflexivity].
  - rewrite IH. unfold xfile_byte.
    destruct (decide (pos + 1 <= k < pos + 1 + Z.of_nat (length rest))) as [H1|H1];
    destruct (decide (pos <= k < pos + Z.of_nat (length (b :: rest)))) as [H2|H2];
    simpl length in *.
    + replace (Z.to_nat (k - pos)) with (S (Z.to_nat (k - (pos + 1)))) by lia.
      reflexivity.
    + lia.
    + assert (k = pos) by lia. subst k.
      rewrite lookup_insert_eq. replace (Z.to_nat (pos - pos)) with O by lia.
      reflexivity.
    + rewrite lookup_insert_ne by lia. reflexivity.
Qed.

Lemma xfile_read_length (xf : gmap Z byte) (n : nat) (pos : Z) :
  length (xfile_read xf n pos) = n.
Proof. unfold xfile_read. now rewrite length_map, length_seq. Qed.

Lemma xfile_read_ext (xf xf' : gmap Z byte) (n : nat) (pos : Z) :
  (forall k, pos <= k < pos + Z.of_nat n -> xfile_byte xf k = xfile_byte xf' k) ->
  xfile_read xf n pos = xfile_read xf' n pos.
Proof.
  intros H. unfold xfile_read. apply map_ext_in. intros i Hi.
  apply in_seq in Hi. apply H. lia.
Qed.

Lemma xfile_word_bytes (xf : gmap Z byte) (w : Z) :
  xfile_word xf w
  = mk_raw (xfile_byte xf (4 * w)) (xfile_byte xf (4 * w + 1))
           (xfile_byte xf (4 * w + 2)) (xfile_byte xf (4 * w + 3)).
Proof.
  unfold xfile_word, xfile_read, raw_of_bytes, XFS_WORDLOG. simpl.
  rewrite Z.shiftl_mul_pow2 by lia.
  replace (w * 2 ^ 2) with (4 * w) by lia.
  now rewrite Z.add_0_r.
Qed.

Lemma xfile_word_write_eq (xf : gmap Z byte) (v : xfs_suminfo_raw) (w : Z) :
  xfile_word (xfile_write xf (raw_to_bytes v) (Z.shiftl w XFS_WORDLOG)) w = v.
Proof.
  rewrite xfile_word_bytes. unfold XFS_WORDLOG.
  rewrite Z.shiftl_mul_pow2 by lia. replace (w * 2 ^ 2) with (4 * w) by lia.
  rewrite !xfile_byte_write. simpl length.
  repeat (destruct (decide _) as [?|?]; [|lia]).
  replace (Z.to_nat (4 * w - 4 * w)) with 0%nat by lia.
  replace (Z.to_nat (4 * w + 1 - 4 * w)) with 1%nat by lia.
  replace (Z.to_nat (4 * w + 2 - 4 * w)) with 2%nat by lia.
  replace (Z.to_nat (4 * w + 3 - 4 * w)) with 3%nat by lia.
  now destruct v.
Qed.

Lemma xfile_word_write_ne (xf : gmap Z byte) (v : xfs_suminfo_raw) (w w' : Z) :
  w' <> w ->
  xfile_word (xfile_write xf (raw_to_bytes v) (Z.shiftl w XFS_WORDLOG)) w'
  = xfile_word xf w'.
Proof.
  intros Hne. rewrite !xfile_word_bytes. unfold XFS_WORDLOG.
  rewrite Z.shiftl_mul_pow2 by lia. replace (w * 2 ^ 2) with (4 * w) by lia.
  rewrite !xfile_byte_write. simpl length.
  repeat (destruct (decide _) as [?|?]; [lia|]).
  reflexivity.
Qed.

(** The byte position of a word offset, computed in 32 bits, is the start of
    the word [sum_word] names. *)
Lemma sum_pos_word (sumoff : Z) :
  sum_pos sumoff = Z.shiftl (sum_word sumoff) XFS_WORDLOG.
Proof.
  unfold sum_pos, sum_word, u32, XFS_WORDLOG. rewrite !Z.shiftl_mul_pow2 by lia.
  change (2 ^ 32) with (2 ^ 30 * 2 ^ 2). apply Z.mul_mod_distr_r; lia.
Qed.

Lemma sum_word_small (sumoff : Z) : 0 <= sumoff < 2 ^ 30 -> sum_word sumoff = sumoff.
Proof. intros H. unfold sum_word. now apply Z.mod_small. Qed.


Section WordLemmas.
Context {env : xfs_env}.


Lemma sum_value_range (xf : gmap Z byte) (w : Z) : 0 <= sum_value xf w < 2 ^ 32.
Proof. apply suminfo_value_range. Qed.

(** One record adds one, in 32 bits, to the word of its coordinate and
    leaves every other word alone. *)
Lemma sum_value_bump (xf : gmap Z byte) (rec : xfs_rtalloc_rec) (w : Z) :
  sum_value (rtsum_bump xf rec) w
  = if rtsum_word rec =? w then u32 (sum_value xf w + 1) else sum_value xf w.
Proof.
  unfold sum_value, rtsum_bump. rewrite sum_pos_word. fold (rtsum_word rec).
  destruct (Z.eqb_spec (rtsum_word rec) w) as [->|Hne].
  - rewrite xfile_word_write_eq. apply suminfo_value_inc.
  - rewrite xfile_word_write_ne by congruence. reflexivity.
Qed.


Lemma rtsum_count_app (l1 l2 : list xfs_rtalloc_rec) (w : Z) :
  rtsum_count (l1 ++ l2) w = rtsum_count l1 w + rtsum_count l2 w.
Proof. induction l1 as [|r rest IH]; simpl; [reflexivity|]. rewrite IH. lia. Qed.

(** Counting in the scratch file: after the records of [recs] each word has
    grown by the number of records that map to it, modulo 2^32. *)
Lemma sum_value_fold (recs : list xfs_rtalloc_rec) :
  forall (xf : gmap Z byte) (w : Z),
    sum_value (fold_left rtsum_bump recs xf) w
    = u32 (sum_value xf w + rtsum_count recs w).
Proof.
  induction recs as [|r rest IH]; intros xf w; simpl.
  - rewrite Z.add_0_r. unfold u32. symmetry. apply Z.mod_small, sum_value_range.
  - rewrite IH, sum_value_bump. unfold u32.
    destruct (rtsum_word r =? w).
    + rewrite Zplus_mod_idemp_l. f_equal. lia.
    + reflexivity.
Qed.

End WordLemmas.

(** *** The walk of the bitmap *)

Ltac scrub_unfold := unfold bind, ret, gets, modify in *.

Lemma set_signals_same (sc : xfs_scrub) : set_signals (sc_signals sc) sc = sc.
Proof. now destruct sc. Qed.

Lemma quiet_S (n : nat) (signals : list bool) :
  quiet (S n) signals -> quiet 1 signals /\ quiet n (drop 1 signals).
Proof.
  unfold quiet. destruct signals as [|b rest]; simpl.
  - intros _. split; [constructor|]. now rewrite firstn_nil.
  - intros H. inversion H; subst. split; [repeat constructor|assumption].
Qed.

Lemma quiet_app (n m : nat) (signals : list bool) :
  quiet (n + m) signals -> quiet n signals /\ quiet m (drop n signals).
Proof.
  unfold quiet. revert signals.
  induction n as [|n IH]; intros signals H; simpl in *.
  - split; [constructor | assumption].
  - destruct signals as [|b rest]; simpl in *.
    + split; [constructor | now rewrite firstn_nil].
    + inversion H; subst. destruct (IH rest) as [H1 H2]; [assumption|].
      split; [constructor; [reflexivity | assumption] | assumption].
Qed.

Lemma quiet_nil (n : nat) : quiet n [].
Proof. unfold quiet. rewrite firstn_nil. constructor. Qed.

Lemma xchk_should_terminate_quiet (error : Z) (sc : xfs_scrub) :
  quiet 1 (sc_signals sc) ->
  xchk_should_terminate error sc
  = ((false, error), set_signals (drop 1 (sc_signals sc)) sc).
Proof.
  unfold quiet, xchk_should_terminate. intros H.
  destruct (sc_signals sc) as [|b rest] eqn:E; simpl in *.
  - now rewrite <- E, set_signals_same.
  - inversion H; subst. reflexivity.
Qed.

Lemma xchk_should_terminate_raised (sc : xfs_scrub) (rest : list bool) :
  sc_signals sc = true :: rest ->
  xchk_should_terminate 0 sc = ((true, - EINTR), set_signals rest sc).
Proof. unfold xchk_should_terminate. now intros ->. Qed.

Section ScanLemmas.
Context {env : xfs_env}.

Lemma xfsum_load_ok (sumoff : Z) (v0 : xfs_suminfo_raw) (sc : xfs_scrub) :
  xfile_access_error (sum_pos sumoff) sizeof_suminfo_raw = 0 ->
  xfsum_load sumoff v0 sc = ((0, xfile_word (sc_xfile sc) (sum_word sumoff)), sc).
Proof.
  intros H. unfold xfsum_load, xfile_load. scrub_unfold. rewrite H.
  unfold xfile_word. now rewrite <- sum_pos_word.
Qed.

Lemma xfsum_store_ok (sumoff : Z) (v : xfs_suminfo_raw) (sc : xfs_scrub) :
  xfile_access_error (sum_pos sumoff) sizeof_suminfo_raw = 0 ->
  xfsum_store sumoff v sc
  = (0, set_xfile (xfile_write (sc_xfile sc) (raw_to_bytes v) (sum_pos sumoff)) sc).
Proof.
  intros H. unfold xfsum_store, xfile_store. now rewrite H.
Qed.

Lemma record_free_ok (g : xfs_rtgroup) (rec : xfs_rtalloc_rec) (sc : xfs_scrub) :
  quiet 1 (sc_signals sc) ->
  rec_in_range g rec = true ->
  rec_io_ok rec ->
  xchk_rtsum_record_free g rec sc = (0, scan_state sc [rec]).
Proof.
  intros Hq Hr Hio. unfold xchk_rtsum_record_free. scrub_unfold.
  rewrite xchk_should_terminate_quiet by assumption.
  unfold rec_in_range in Hr. rewrite Hr. cbn [negb]. cbv beta iota.
  rewrite xfsum_load_ok by exact Hio. cbn [negb Z.eqb]. cbv beta iota.
  fold (rtsum_offs rec).
  fold (rtsum_word rec).
  destruct (xchk_rtsum_inc cpu (m_has_rtgroups mp)
              (xfile_word (sc_xfile (set_signals (drop 1 (sc_signals sc)) sc))
                 (rtsum_word rec))) as [value v] eqn:E.
  rewrite xfsum_store_ok by exact Hio.
  unfold scan_state, rtsum_bump. simpl in *. now rewrite E.
Qed.

Lemma record_free_out_of_range (g : xfs_rtgroup) (rec : xfs_rtalloc_rec)
    (sc : xfs_scrub) :
  quiet 1 (sc_signals sc) ->
  rec_in_range g rec = false ->
  xchk_rtsum_record_free g rec sc
  = (- EFSCORRUPTED,
     snd (xchk_ino_xref_set_corrupt (i_ino (rtg_bitmap g))
            (set_signals (drop 1 (sc_signals sc)) sc))).
Proof.
  intros Hq Hr. unfold xchk_rtsum_record_free. scrub_unfold.
  rewrite xchk_should_terminate_quiet by assumption.
  unfold rec_in_range in Hr. now rewrite Hr.
Qed.

Lemma record_free_cancelled (g : xfs_rtgroup) (rec : xfs_rtalloc_rec)
    (sc : xfs_scrub) (rest : list bool) :
  sc_signals sc = true :: rest ->
  xchk_rtsum_record_free g rec sc = (- EINTR, set_signals rest sc).
Proof.
  intros H. unfold xchk_rtsum_record_free. scrub_unfold.
  now rewrite (xchk_should_terminate_raised sc rest H).
Qed.

Lemma scan_state_nil (sc : xfs_scrub) : scan_state sc [] = sc.
Proof. unfold scan_state. simpl. now destruct sc. Qed.

Lemma scan_state_cons (sc : xfs_scrub) (rec : xfs_rtalloc_rec)
    (recs : list xfs_rtalloc_rec) :
  scan_state (scan_state sc [rec]) recs = scan_state sc (rec :: recs).
Proof.
  unfold scan_state. simpl. rewrite drop_drop.
  now replace (1 + length recs)%nat with (S (length recs)) by lia.
Qed.

Lemma scan_state_app (sc : xfs_scrub) (l1 l2 : list xfs_rtalloc_rec) :
  scan_state (scan_state sc l1) l2 = scan_state sc (l1 ++ l2).
Proof.
  unfold scan_state. simpl. rewrite drop_drop, fold_left_app, length_app.
  reflexivity.
Qed.

(** The records of a prefix that is in range, with no failure of the
    scratch file and no cancellation, all go into the scratch file and the
    walk goes on with what follows. *)
Lemma query_records_ok (g : xfs_rtgroup) (recs rest : list xfs_rtalloc_rec) :
  forall sc : xfs_scrub,
    quiet (length recs) (sc_signals sc) ->
    Forall (fun rec => rec_in_range g rec = true) recs ->
    Forall rec_io_ok recs ->
    rtalloc_query_records xchk_rtsum_record_free g (recs ++ rest) sc
    = rtalloc_query_records xchk_rtsum_record_free g rest (scan_state sc recs).
Proof.
  induction recs as [|r recs IH]; intros sc Hq Hr Hio.
  - now rewrite scan_state_nil.
  - simpl length in Hq. apply quiet_S in Hq. destruct Hq as [Hq1 Hq2].
    inversion Hr; subst. inversion Hio; subst.
    simpl. unfold bind at 1. rewrite record_free_ok by assumption.
    cbn [negb Z.eqb]. cbv beta iota. rewrite IH; try assumption.
    now rewrite scan_state_cons.
Qed.

(** The walk stops at the first visitor that does not return 0. *)
Lemma query_records_stop (fn : xfs_rtgroup -> xfs_rtalloc_rec -> scrubM Z)
    (g : xfs_rtgroup) (rec : xfs_rtalloc_rec) (rest : list xfs_rtalloc_rec)
    (sc sc' : xfs_scrub) (error : Z) :
  fn g rec sc = (error, sc') -> error <> 0 ->
  rtalloc_query_records fn g (rec :: rest) sc = (error, sc').
Proof.
  intros H Hne. simpl. unfold bind. rewrite H.
  destruct (Z.eqb_spec error 0); [contradiction | reflexivity].
Qed.

Lemma scan_state_flags sc recs : sm_flags (scan_state sc recs) = sm_flags sc.
Proof. reflexivity. Qed.

Lemma scan_state_trace sc recs : sc_trace (scan_state sc recs) = sc_trace sc.
Proof. reflexivity. Qed.

End ScanLemmas.

(** *** The comparison *)

Section CompareLemmas.
Context {env : xfs_env}.

Lemma process_error_none (whichfork off : Z) (sc : xfs_scrub) :
  xchk_fblock_process_error whichfork off 0 sc = ((true, 0), sc).
Proof. reflexivity. Qed.

(** The loop is only ever told to go on with an [error] of 0. *)
Lemma process_error_ok (whichfork off error : Z) (sc sc' : xfs_scrub) (e : Z) :
  xchk_fblock_process_error whichfork off error sc = ((true, e), sc') ->
  e = 0 /\ error = 0 /\ sc' = sc.
Proof.
  unfold xchk_fblock_process_error, ret.
  destruct (Z.eqb_spec error 0) as [->|Hne].
  - intros [= <- <-]. auto.
  - destruct (_ || _); intros [=].
Qed.

Lemma maps_done (fuel : nat) (endoff off error : Z) (sc : xfs_scrub) :
  endoff <= off ->
  xchk_rtsum_compare_maps fuel endoff off error sc = (Some Fallthrough, sc).
Proof.
  intros H. destruct fuel; simpl;
    (destruct (Z.ltb_spec off endoff); [lia | reflexivity]).
Qed.

Lemma maps_written (fuel : nat) (endoff off : Z) (map : xfs_bmbt_irec)
    (sc : xfs_scrub) :
  off < endoff ->
  quiet 1 (sc_signals sc) ->
  Z.land (sm_flags sc) XFS_SCRUB_OFLAG_CORRUPT = 0 ->
  xfs_bmapi_read (sc_ip sc) off (endoff - off) = (0, 1, map) ->
  xfs_bmap_is_written_extent map = true ->
  xchk_rtsum_compare_maps (S fuel) endoff off 0 sc
  = xchk_rtsum_compare_maps fuel endoff (off + br_blockcount map) 0
      (set_signals (drop 1 (sc_signals sc)) sc).
Proof.
  intros Hlt Hq Hf Hmap Hw. simpl.
  destruct (Z.ltb_spec off endoff); [|lia].
  scrub_unfold. rewrite xchk_should_terminate_quiet by assumption.
  change (sm_flags (set_signals (drop 1 (sc_signals sc)) sc)) with (sm_flags sc).
  rewrite Hf. cbn [Z.eqb negb]. cbv beta iota.
  change (sc_ip (set_signals (drop 1 (sc_signals sc)) sc)) with (sc_ip sc).
  rewrite Hmap. rewrite process_error_none. cbn [negb Z.eqb Pos.eqb orb].
  rewrite Hw. reflexivity.
Qed.

Lemma maps_not_written (fuel : nat) (endoff off nmap : Z) (map : xfs_bmbt_irec)
    (sc : xfs_scrub) :
  off < endoff ->
  quiet 1 (sc_signals sc) ->
  Z.land (sm_flags sc) XFS_SCRUB_OFLAG_CORRUPT = 0 ->
  xfs_bmapi_read (sc_ip sc) off (endoff - off) = (0, nmap, map) ->
  (nmap =? 1) && xfs_bmap_is_written_extent map = false ->
  xchk_rtsum_compare_maps (S fuel) endoff off 0 sc
  = (Some (Return 0),
     snd (xchk_fblock_set_corrupt XFS_DATA_FORK off
            (set_signals (drop 1 (sc_signals sc)) sc))).
Proof.
  intros Hlt Hq Hf Hmap Hw. simpl.
  destruct (Z.ltb_spec off endoff); [|lia].
  scrub_unfold. rewrite xchk_should_terminate_quiet by assumption.
  change (sm_flags (set_signals (drop 1 (sc_signals sc)) sc)) with (sm_flags sc).
  rewrite Hf. cbn [Z.eqb negb]. cbv beta iota.
  change (sc_ip (set_signals (drop 1 (sc_signals sc)) sc)) with (sc_ip sc).
  rewrite Hmap. rewrite process_error_none. cbn [negb].
  rewrite <- negb_andb, Hw. reflexivity.
Qed.

Lemma maps_cancelled (fuel : nat) (endoff off : Z) (sc : xfs_scrub)
    (rest : list bool) :
  off < endoff ->
  sc_signals sc = true :: rest ->
  xchk_rtsum_compare_maps (S fuel) endoff off 0 sc
  = (Some (Return (- EINTR)), set_signals rest sc).
Proof.
  intros Hlt Hs. simpl. destruct (Z.ltb_spec off endoff); [|lia].
  scrub_unfold. now rewrite (xchk_should_terminate_raised sc rest Hs).
Qed.

(** Along a chain of written mappings the loop goes from one mapping to the
    next, one checkpoint each. *)
Lemma maps_chain (endoff : Z) (ip : xfs_inode) (off : Z) (n : nat) (off' : Z) :
  written_chain ip endoff off n off' ->
  forall (fuel : nat) (sc : xfs_scrub),
    sc_ip sc = ip ->
    quiet n (sc_signals sc) ->
    Z.land (sm_flags sc) XFS_SCRUB_OFLAG_CORRUPT = 0 ->
    xchk_rtsum_compare_maps (n + fuel) endoff off 0 sc
    = xchk_rtsum_compare_maps fuel endoff off' 0
        (set_signals (drop n (sc_signals sc)) sc).
Proof.
  induction 1 as [off | off n off' map Hlt Hmap Hw Hch IH]; intros fuel sc Hip Hq Hf.
  - change (drop 0 (sc_signals sc)) with (sc_signals sc).
    now rewrite set_signals_same.
  - apply quiet_S in Hq. destruct Hq as [Hq1 Hq2].
    cbn [Nat.add]. subst ip. rewrite (maps_written _ _ _ map) by assumption.
    rewrite IH by (first [assumption | reflexivity]).
    cbn [sc_signals set_signals]. rewrite drop_drop. reflexivity.
Qed.

Lemma compared_state_xfile (k : nat) :
  forall (sc : xfs_scrub) (off : Z), sc_xfile (compared_state sc off k) = sc_xfile sc.
Proof. induction k as [|k IH]; intros sc off; simpl; [|rewrite IH]; reflexivity. Qed.

Lemma compared_state_flags (k : nat) :
  forall (sc : xfs_scrub) (off : Z), sm_flags (compared_state sc off k) = sm_flags sc.
Proof. induction k as [|k IH]; intros sc off; simpl; [|rewrite IH]; reflexivity. Qed.

Lemma compared_state_ip (k : nat) :
  forall (sc : xfs_scrub) (off : Z), sc_ip (compared_state sc off k) = sc_ip sc.
Proof. induction k as [|k IH]; intros sc off; simpl; [|rewrite IH]; reflexivity. Qed.

Lemma compared_state_trace (k : nat) :
  forall (sc : xfs_scrub) (off : Z),
    sc_trace (compared_state sc off k)
    = sc_trace sc ++ map (fun i => Ev_rtsummary_read_buf (off + Z.of_nat i)) (seq 0 k).
Proof.
  induction k as [|k IH]; intros sc off.
  - simpl. now rewrite app_nil_r.
  - cbn [compared_state]. rewrite IH. cbn [sc_trace set_buf log_event].
    rewrite <- app_assoc. f_equal. cbn [seq map app]. f_equal.
    + f_equal. lia.
    + rewrite <- seq_shift, map_map. apply map_ext. intros i. f_equal. lia.
Qed.

Lemma u32_idem_add (a b : Z) : u32 (u32 a + b) = u32 (a + b).
Proof. unfold u32. apply Zplus_mod_idemp_l. Qed.

Lemma xfsum_copyout_ok (off : Z) (buf : list byte) (sc : xfs_scrub) :
  xfile_access_error (sum_pos (u32 (off * m_blockwsize mp)))
    (words_len (m_blockwsize mp)) = 0 ->
  xfsum_copyout (u32 (off * m_blockwsize mp)) buf (m_blockwsize mp) sc
  = ((0, computed_block (sc_xfile sc) off), sc).
Proof. intros H. unfold xfsum_copyout, xfile_load. now rewrite H. Qed.

(** A block that reads and compares equal: on to the next block. *)
Lemma blocks_same (n : nat) (off : Z) (sc : xfs_scrub) :
  block_readable off ->
  block_same (sc_xfile sc) off ->
  xchk_rtsum_compare_blocks (S n) off (u32 (off * m_blockwsize mp)) sc
  = xchk_rtsum_compare_blocks n (off + 1) (u32 ((off + 1) * m_blockwsize mp))
      (compared_state sc off 1).
Proof.
  intros [Hrd Hxf] Hsame. cbn [xchk_rtsum_compare_blocks].
  unfold xfs_rtsummary_read_buf. scrub_unfold.
  destruct (rtsummary_block off) as [error ondisk] eqn:E.
  cbn [fst snd] in *. subst error. unfold block_same in Hsame. rewrite E in Hsame.
  cbn [snd] in Hsame.
  rewrite process_error_none. cbn [negb].
  rewrite xfsum_copyout_ok by exact Hxf. cbn [negb Z.eqb sc_xfile log_event].
  rewrite Hsame. cbn [negb Z.eqb]. rewrite u32_idem_add.
  replace (off * m_blockwsize mp + m_blockwsize mp) with ((off + 1) * m_blockwsize mp) by lia.
  reflexivity.
Qed.

(** A block that reads and compares different: reported, and the loop ends
    there with the error of the last read, which is 0. *)
Lemma blocks_differ (n : nat) (off : Z) (sc : xfs_scrub) :
  block_readable off ->
  ~ block_same (sc_xfile sc) off ->
  xchk_rtsum_compare_blocks (S n) off (u32 (off * m_blockwsize mp)) sc
  = (0, snd (xchk_fblock_set_corrupt XFS_DATA_FORK off (compared_state sc off 1))).
Proof.
  intros [Hrd Hxf] Hdiff. cbn [xchk_rtsum_compare_blocks].
  unfold xfs_rtsummary_read_buf. scrub_unfold.
  destruct (rtsummary_block off) as [error ondisk] eqn:E.
  cbn [fst snd] in *. subst error. unfold block_same in Hdiff. rewrite E in Hdiff.
  cbn [snd] in Hdiff.
  rewrite process_error_none. cbn [negb].
  rewrite xfsum_copyout_ok by exact Hxf. cbn [negb Z.eqb sc_xfile log_event].
  destruct (Z.eqb_spec (memcmp ondisk (computed_block (sc_xfile sc) off)
              (Z.to_nat (words_len (m_blockwsize mp)))) 0) as [H0|H0];
    [contradiction|].
  reflexivity.
Qed.

Lemma blocks_prefix (k : nat) :
  forall (n : nat) (off : Z) (sc : xfs_scrub),
    (forall j, off <= j < off + Z.of_nat k ->
               block_readable j /\ block_same (sc_xfile sc) j) ->
    xchk_rtsum_compare_blocks (k + n) off (u32 (off * m_blockwsize mp)) sc
    = xchk_rtsum_compare_blocks n (off + Z.of_nat k)
        (u32 ((off + Z.of_nat k) * m_blockwsize mp)) (compared_state sc off k).
Proof.
  induction k as [|k IH]; intros n off sc H.
  - simpl. now rewrite Z.add_0_r.
  - cbn [Nat.add]. destruct (H off) as [Hr Hs]; [lia|].
    rewrite blocks_same by assumption.
    rewrite IH.
    + cbn [compared_state]. replace (off + 1 + Z.of_nat k) with (off + Z.of_nat (S k)) by lia.
      reflexivity.
    + intros j Hj. rewrite compared_state_xfile. apply H. lia.
Qed.

End CompareLemmas.

(** ** Properties of the checker *)

(** *** The counter encodings *)

Lemma s32_u32 (z : Z) : s32 (u32 z) = s32 z.
Proof. unfold s32, u32. now rewrite Z.mod_mod by lia. Qed.

(** C7.  [xchk_rtsum_inc] follows the encoding of the file system.  With
    realtime groups the word is a big-endian 32-bit integer: whatever the
    byte order of the machine, the bytes written are those of the old value
    plus one, most significant first.  Without, the word is a native-endian
    32-bit integer and one is added with no rollover guard: a word at its
    maximum, all bits set, becomes 0.  The value returned is the new word
    read as the signed [xfs_suminfo_t].  On a little-endian machine the two
    encodings of 1 differ in byte order. *)
Theorem xchk_rtsum_inc_encodings (c : endianness) (v : xfs_suminfo_raw) :
  (snd (xchk_rtsum_inc c true v) = cpu_to_be32 ((be32_to_cpu v + 1) mod 2 ^ 32)
   /\ be32_to_cpu (snd (xchk_rtsum_inc c true v)) = (be32_to_cpu v + 1) mod 2 ^ 32
   /\ fst (xchk_rtsum_inc c true v) = s32 (be32_to_cpu v + 1))
  /\ (raw_old c (snd (xchk_rtsum_inc c false v)) = (raw_old c v + 1) mod 2 ^ 32
      /\ fst (xchk_rtsum_inc c false v) = s32 (raw_old c v + 1))
  /\ (raw_old c (mk_raw xff xff xff xff) = 2 ^ 32 - 1
      /\ xchk_rtsum_inc c false (mk_raw xff xff xff xff) = (0, raw_zero))
  /\ (xchk_rtsum_inc LittleEndian true raw_zero = (1, mk_raw x00 x00 x00 x01)
      /\ xchk_rtsum_inc LittleEndian false raw_zero = (1, mk_raw x01 x00 x00 x00)
      /\ xchk_rtsum_inc BigEndian false raw_zero = (1, mk_raw x00 x00 x00 x01)
      /\ xchk_rtsum_inc BigEndian false (mk_raw x7f xff xff xff)
         = (- 2 ^ 31, mk_raw x80 x00 x00 x00)).
Proof.
  assert (Hbe : be32_to_cpu (snd (xchk_rtsum_inc c true v))
                = (be32_to_cpu v + 1) mod 2 ^ 32).
  { apply (suminfo_value_inc c true v). }
  assert (Hold : raw_old c (snd (xchk_rtsum_inc c false v))
                 = (raw_old c v + 1) mod 2 ^ 32).
  { apply (suminfo_value_inc c false v). }
  assert (Hfb : fst (xchk_rtsum_inc c true v) = s32 (be32_to_cpu v + 1)).
  { change (fst (xchk_rtsum_inc c true v))
      with (s32 (be32_to_cpu (snd (xchk_rtsum_inc c true v)))).
    rewrite Hbe. apply s32_u32. }
  assert (Hfo : fst (xchk_rtsum_inc c false v) = s32 (raw_old c v + 1)).
  { change (fst (xchk_rtsum_inc c false v))
      with (s32 (raw_old c (snd (xchk_rtsum_inc c false v)))).
    rewrite Hold. apply s32_u32. }
  repeat split; try assumption; try reflexivity.
  - destruct c; reflexivity.
  - destruct c; reflexivity.
Qed.

(** *** Counting the free extents *)

Section Counting.
Context {env : xfs_env}.

(** When the size of the bitmap agrees and nothing stops the walk, every
    record goes into the scratch file. *)
Lemma xchk_rtsum_compute_ok (sc : xfs_scrub) :
  XFS_FSB_TO_B mp (xfs_rtbitmap_blockcount mp) = i_disk_size (rtg_bitmap rtg) ->
  Forall (fun rec => rec_in_range rtg rec = true) (rtg_free rtg) ->
  Forall rec_io_ok (rtg_free rtg) ->
  rtg_query_error rtg = 0 ->
  quiet (length (rtg_free rtg)) (sc_signals sc) ->
  xchk_rtsum_compute sc = (0, scan_state sc (rtg_free rtg)).
Proof.
  intros Hsize Hr Hio Hq Hs. unfold xchk_rtsum_compute.
  rewrite Hsize, Z.eqb_refl. cbn [negb].
  unfold xfs_rtalloc_query_all, bind.
  rewrite <- (app_nil_r (rtg_free rtg)) at 1.
  rewrite query_records_ok by assumption.
  cbn [rtalloc_query_records ret negb Z.eqb]. now rewrite Hq.
Qed.



End Counting.







(** *** The coordinate of a free extent *)






(** *** The stages of the check *)

Section Stages.
Context {env : xfs_env}.

Lemma xchk_rtsummary_geometry_ok (fuel : nat) (sc : xfs_scrub) :
  geometry_ok sc -> xchk_rtsummary fuel sc = xchk_rtsummary_recompute fuel sc.
Proof.
  intros (H1 & H2 & H3 & H4 & H5).
  unfold xchk_rtsummary, xchk_rtsummary_file_length. scrub_unfold.
  rewrite H1, H2, H3, H4, !Z.eqb_refl. cbn [negb].
  destruct (Z.ltb_spec (i_disk_size (rtg_summary rtg))
              (XFS_FSB_TO_B mp (rsumblocks (sc_buf sc)))); [lia | reflexivity].
Qed.

(** The walk ends at the first record that is out of range. *)
Lemma xchk_rtsum_compute_out_of_range (sc : xfs_scrub)
    (l1 l2 : list xfs_rtalloc_rec) (bad : xfs_rtalloc_rec) :
  XFS_FSB_TO_B mp (xfs_rtbitmap_blockcount mp) = i_disk_size (rtg_bitmap rtg) ->
  rtg_free rtg = l1 ++ bad :: l2 ->
  Forall (fun rec => rec_in_range rtg rec = true) l1 ->
  Forall rec_io_ok l1 ->
  rec_in_range rtg bad = false ->
  quiet (S (length l1)) (sc_signals sc) ->
  xchk_rtsum_compute sc
  = (- EFSCORRUPTED,
     snd (xchk_ino_xref_set_corrupt (i_ino (rtg_bitmap rtg))
            (after_checkpoint (scan_state sc l1)))).
Proof.
  intros Hsize Hfree Hr Hio Hbad Hq. unfold xchk_rtsum_compute.
  rewrite Hsize, Z.eqb_refl. cbn [negb].
  unfold xfs_rtalloc_query_all, bind. rewrite Hfree.
  replace (S (length l1)) with (length l1 + 1)%nat in Hq by lia.
  apply quiet_app in Hq. destruct Hq as [Hq1 Hq2].
  rewrite query_records_ok by assumption.
  rewrite (query_records_stop _ _ _ _ _ _ (- EFSCORRUPTED)
             (record_free_out_of_range rtg bad (scan_state sc l1) Hq2 Hbad))
    by discriminate.
  reflexivity.
Qed.

(** The walk ends at the record at whose checkpoint the signal is raised. *)
Lemma xchk_rtsum_compute_cancelled (sc : xfs_scrub)
    (l1 l2 : list xfs_rtalloc_rec) (rec : xfs_rtalloc_rec) (rest : list bool) :
  XFS_FSB_TO_B mp (xfs_rtbitmap_blockcount mp) = i_disk_size (rtg_bitmap rtg) ->
  rtg_free rtg = l1 ++ rec :: l2 ->
  Forall (fun rec => rec_in_range rtg rec = true) l1 ->
  Forall rec_io_ok l1 ->
  quiet (length l1) (sc_signals sc) ->
  drop (length l1) (sc_signals sc) = true :: rest ->
  xchk_rtsum_compute sc = (- EINTR, set_signals rest (scan_state sc l1)).
Proof.
  intros Hsize Hfree Hr Hio Hq Hsig. unfold xchk_rtsum_compute.
  rewrite Hsize, Z.eqb_refl. cbn [negb].
  unfold xfs_rtalloc_query_all, bind. rewrite Hfree.
  rewrite query_records_ok by assumption.
  rewrite (query_records_stop _ _ _ _ _ _ (- EINTR)
             (record_free_cancelled rtg rec (scan_state sc l1) rest Hsig))
    by discriminate.
  reflexivity.
Qed.

(** What [xchk_rtsummary] makes of the result of the recomputation. *)
Lemma xchk_rtsummary_recompute_corrupt (fuel : nat) (sc sc1 sc2 : xfs_scrub) :
  xchk_metadata_inode_forks sc = (0, sc1) ->
  Z.land (sm_flags sc1) XFS_SCRUB_OFLAG_CORRUPT = 0 ->
  xchk_rtsum_compute sc1 = (- EFSCORRUPTED, sc2) ->
  xchk_rtsummary_recompute fuel sc
  = (Some 0, snd (xchk_ino_set_corrupt (i_ino (rtg_bitmap rtg)) sc2)).
Proof.
  intros Hforks Hflags Hcomp. unfold xchk_rtsummary_recompute. scrub_unfold.
  rewrite Hforks, Hflags. cbn [Z.eqb negb orb]. rewrite Hcomp. reflexivity.
Qed.

Lemma xchk_rtsummary_recompute_error (fuel : nat) (sc sc1 sc2 : xfs_scrub)
    (error : Z) :
  xchk_metadata_inode_forks sc = (0, sc1) ->
  Z.land (sm_flags sc1) XFS_SCRUB_OFLAG_CORRUPT = 0 ->
  xchk_rtsum_compute sc1 = (error, sc2) ->
  error <> 0 -> error <> - EFSCORRUPTED ->
  xchk_rtsummary_recompute fuel sc = (Some error, sc2).
Proof.
  intros Hforks Hflags Hcomp H0 Hc. unfold xchk_rtsummary_recompute. scrub_unfold.
  rewrite Hforks, Hflags. cbn [Z.eqb negb orb]. rewrite Hcomp.
  destruct (Z.eqb_spec error (- EFSCORRUPTED)); [contradiction|].
  destruct (Z.eqb_spec error 0); [contradiction|]. reflexivity.
Qed.

Lemma xchk_rtsummary_recompute_compare (fuel : nat) (sc sc1 sc2 : xfs_scrub) :
  xchk_metadata_inode_forks sc = (0, sc1) ->
  Z.land (sm_flags sc1) XFS_SCRUB_OFLAG_CORRUPT = 0 ->
  xchk_rtsum_compute sc1 = (0, sc2) ->
  xchk_rtsummary_recompute fuel sc = xchk_rtsum_compare fuel sc2.
Proof.
  intros Hforks Hflags Hcomp. unfold xchk_rtsummary_recompute. scrub_unfold.
  rewrite Hforks, Hflags. cbn [Z.eqb negb orb]. rewrite Hcomp. reflexivity.
Qed.

End Stages.

(** C8.  When the size on disk of the bitmap file is not the computed number
    of bitmap blocks in bytes, the compute stage returns the corruption
    error with the scrub context as it was: no checkpoint polled, no record
    visited, the scratch file untouched.  When the sizes are equal the
    compute stage is the walk of the bitmap. *)
Theorem rtsum_compute_size_precheck `{env : xfs_env} (sc : xfs_scrub) :
  (XFS_FSB_TO_B mp (xfs_rtbitmap_blockcount mp) <> i_disk_size (rtg_bitmap rtg) ->
   xchk_rtsum_compute sc = (- EFSCORRUPTED, sc))
  /\ (XFS_FSB_TO_B mp (xfs_rtbitmap_blockcount mp) = i_disk_size (rtg_bitmap rtg) ->
      xchk_rtsum_compute sc = xfs_rtalloc_query_all rtg xchk_rtsum_record_free sc).
Proof.
  unfold xchk_rtsum_compute. split; intros H.
  - destruct (Z.eqb_spec (XFS_FSB_TO_B mp (xfs_rtbitmap_blockcount mp))
                (i_disk_size (rtg_bitmap rtg))); [contradiction | reflexivity].
  - now rewrite H, Z.eqb_refl.
Qed.

(** *** The comparator *)

Lemma byte_to_Z_inj (x y : byte) : byte_to_Z x = byte_to_Z y -> x = y.
Proof. intros H. rewrite <- (byte_of_to_Z x), <- (byte_of_to_Z y). now rewrite H. Qed.

(** [memcmp] is 0 exactly when the first [n] bytes are the same. *)
Lemma memcmp_zero_iff (n : nat) :
  forall a b : list byte,
    memcmp a b n = 0 <-> (forall i, (i < n)%nat -> nth i a x00 = nth i b x00).
Proof.
  induction n as [|n IH]; intros a b; cbn [memcmp].
  - split; [intros _ i Hi; lia | reflexivity].
  - destruct (Z.ltb_spec (byte_to_Z (hd x00 a)) (byte_to_Z (hd x00 b))) as [Hlt|Hge].
    + split; [discriminate|]. intros H. specialize (H O ltac:(lia)).
      destruct a, b; simpl in *; subst; lia.
    + destruct (Z.ltb_spec (byte_to_Z (hd x00 b)) (byte_to_Z (hd x00 a))) as [Hlt'|Hge'].
      * split; [discriminate|]. intros H. specialize (H O ltac:(lia)).
        destruct a, b; simpl in *; subst; lia.
      * assert (Hhd : hd x00 a = hd x00 b) by (apply byte_to_Z_inj; lia).
        rewrite IH. split; intros H i Hi.
        -- destruct i as [|i].
           ++ destruct a, b; simpl in *; assumption.
           ++ specialize (H i ltac:(lia)). destruct a, b; simpl in *;
                try assumption; destruct i; assumption.
        -- specialize (H (S i) ltac:(lia)). destruct a, b; simpl in *;
             try assumption; destruct i; assumption.
Qed.

Section Comparator.
Context {env : xfs_env}.

Lemma xchk_rtsum_compare_beyond_eof (fuel : nat) (sc : xfs_scrub) :
  xfs_iext_lookup_extent (sc_ip sc) (rtsum_endoff sc) = true ->
  xchk_rtsum_compare fuel sc
  = (Some 0, snd (xchk_fblock_set_corrupt XFS_DATA_FORK (rtsum_endoff sc) sc)).
Proof.
  intros H. unfold xchk_rtsum_compare, rtsum_endoff in *. scrub_unfold.
  now rewrite H.
Qed.

Lemma xchk_rtsum_compare_return (fuel : nat) (sc sc' : xfs_scrub) (r : Z) :
  xfs_iext_lookup_extent (sc_ip sc) (rtsum_endoff sc) = false ->
  xchk_rtsum_compare_maps fuel (rtsum_endoff sc) 0 0 sc = (Some (Return r), sc') ->
  xchk_rtsum_compare fuel sc = (Some r, sc').
Proof.
  intros H Hm. unfold xchk_rtsum_compare, rtsum_endoff in *. scrub_unfold.
  now rewrite H, Hm.
Qed.

Lemma xchk_rtsum_compare_through (fuel : nat) (sc sc' : xfs_scrub) :
  xfs_iext_lookup_extent (sc_ip sc) (rtsum_endoff sc) = false ->
  xchk_rtsum_compare_maps fuel (rtsum_endoff sc) 0 0 sc = (Some Fallthrough, sc') ->
  xchk_rtsum_compare fuel sc
  = (Some (fst (xchk_rtsum_compare_blocks (Z.to_nat (rtsum_endoff sc)) 0 0 sc')),
     snd (xchk_rtsum_compare_blocks (Z.to_nat (rtsum_endoff sc)) 0 0 sc')).
Proof.
  intros H Hm. unfold xchk_rtsum_compare, rtsum_endoff in *. scrub_unfold.
  rewrite H, Hm. now destruct (xchk_rtsum_compare_blocks _ 0 0 sc').
Qed.

(** The mapping check passes on a file that is one chain of written mappings
    up to its end. *)
Lemma maps_pass (fuel n : nat) (sc : xfs_scrub) (off : Z) :
  Z.land (sm_flags sc) XFS_SCRUB_OFLAG_CORRUPT = 0 ->
  written_chain (sc_ip sc) (rtsum_endoff sc) 0 n off ->
  rtsum_endoff sc <= off ->
  quiet n (sc_signals sc) ->
  (n <= fuel)%nat ->
  xchk_rtsum_compare_maps fuel (rtsum_endoff sc) 0 0 sc
  = (Some Fallthrough, set_signals (drop n (sc_signals sc)) sc).
Proof.
  intros Hf Hch Hend Hq Hfuel.
  replace fuel with (n + (fuel - n))%nat by lia.
  rewrite (maps_chain _ _ _ _ _ Hch) by (first [assumption | reflexivity]).
  now apply maps_done.
Qed.

(** The mapping check stops at the first mapping that is not written. *)
Lemma maps_stop (fuel n : nat) (sc : xfs_scrub) (off nmap : Z) (map : xfs_bmbt_irec) :
  Z.land (sm_flags sc) XFS_SCRUB_OFLAG_CORRUPT = 0 ->
  written_chain (sc_ip sc) (rtsum_endoff sc) 0 n off ->
  off < rtsum_endoff sc ->
  quiet (S n) (sc_signals sc) ->
  (n < fuel)%nat ->
  xfs_bmapi_read (sc_ip sc) off (rtsum_endoff sc - off) = (0, nmap, map) ->
  (nmap =? 1) && xfs_bmap_is_written_extent map = false ->
  xchk_rtsum_compare_maps fuel (rtsum_endoff sc) 0 0 sc
  = (Some (Return 0),
     snd (xchk_fblock_set_corrupt XFS_DATA_FORK off
            (set_signals (drop (S n) (sc_signals sc)) sc))).
Proof.
  intros Hf Hch Hlt Hq Hfuel Hmap Hbad.
  replace (S n) with (n + 1)%nat in Hq by lia.
  apply quiet_app in Hq. destruct Hq as [Hq1 Hq2].
  replace fuel with (n + S (fuel - S n))%nat by lia.
  rewrite (maps_chain _ _ _ _ _ Hch) by (first [assumption | reflexivity]).
  rewrite (maps_not_written _ _ _ nmap map); try assumption.
  cbn [sc_signals set_signals]. rewrite drop_drop.
  replace (n + 1)%nat with (S n) by lia. reflexivity.
Qed.

Lemma maps_interrupted (fuel n : nat) (sc : xfs_scrub) (off : Z) (rest : list bool) :
  Z.land (sm_flags sc) XFS_SCRUB_OFLAG_CORRUPT = 0 ->
  written_chain (sc_ip sc) (rtsum_endoff sc) 0 n off ->
  off < rtsum_endoff sc ->
  quiet n (sc_signals sc) ->
  drop n (sc_signals sc) = true :: rest ->
  (n < fuel)%nat ->
  xchk_rtsum_compare_maps fuel (rtsum_endoff sc) 0 0 sc
  = (Some (Return (- EINTR)), set_signals rest sc).
Proof.
  intros Hf Hch Hlt Hq Hsig Hfuel.
  replace fuel with (n + S (fuel - S n))%nat by lia.
  rewrite (maps_chain _ _ _ _ _ Hch) by (first [assumption | reflexivity]).
  now rewrite (maps_cancelled _ _ _ _ rest).
Qed.

End Comparator.

Lemma compared_state_app `{env : xfs_env} (a b : nat) :
  forall (sc : xfs_scrub) (off : Z),
    compared_state sc off (a + b)
    = compared_state (compared_state sc off a) (off + Z.of_nat a) b.
Proof.
  induction a as [|a IH]; intros sc off.
  - cbn [Nat.add compared_state]. now rewrite Z.add_0_r.
  - cbn [Nat.add compared_state]. rewrite IH. f_equal. lia.
Qed.

(** C3.  On a summary file whose mappings pass the check, the comparator
    reads and compares the blocks in ascending order; when the blocks before
    block [k] are the same on both sides and block [k] differs, it reads the
    blocks 0 to [k] and no other, marks the data fork of the summary inode
    corrupt at block [k], and returns 0. *)
Theorem rtsum_compare_first_mismatch `{env : xfs_env}
    (fuel n : nat) (sc : xfs_scrub) (off k : Z) :
  xfs_iext_lookup_extent (sc_ip sc) (rtsum_endoff sc) = false ->
  Z.land (sm_flags sc) XFS_SCRUB_OFLAG_CORRUPT = 0 ->
  written_chain (sc_ip sc) (rtsum_endoff sc) 0 n off ->
  rtsum_endoff sc <= off ->
  quiet n (sc_signals sc) ->
  (n <= fuel)%nat ->
  0 <= k < rtsum_endoff sc ->
  (forall j, 0 <= j < k -> block_readable j /\ block_same (sc_xfile sc) j) ->
  block_readable k ->
  ~ block_same (sc_xfile sc) k ->
  exists sc',
    xchk_rtsum_compare fuel sc = (Some 0, sc')
    /\ sc_trace sc'
       = sc_trace sc ++ reads_upto k
         ++ [Ev_fblock_set_corrupt (i_ino (sc_ip sc)) XFS_DATA_FORK k]
    /\ sm_flags sc' = Z.lor (sm_flags sc) XFS_SCRUB_OFLAG_CORRUPT
    /\ (forall j, k < j -> ~ In (Ev_rtsummary_read_buf j) (reads_upto k)).
Proof.
  intros Hlook Hf Hch Hend Hq Hfuel Hk Hsame Hrd Hdiff.
  set (sc1 := set_signals (drop n (sc_signals sc)) sc).
  set (k' := Z.to_nat k).
  assert (Hblocks :
    xchk_rtsum_compare_blocks (Z.to_nat (rtsum_endoff sc)) 0 0 sc1
    = (0, snd (xchk_fblock_set_corrupt XFS_DATA_FORK k
                 (compared_state sc1 0 (S k'))))).
  { replace (Z.to_nat (rtsum_endoff sc))
      with (k' + S (Z.to_nat (rtsum_endoff sc) - S k'))%nat by lia.
    change 0 with (u32 (0 * m_blockwsize mp)) at 2.
    rewrite blocks_prefix.
    - replace (0 + Z.of_nat k') with k by lia.
      rewrite blocks_differ.
      + replace (S k') with (k' + 1)%nat by lia.
        rewrite compared_state_app. replace (0 + Z.of_nat k') with k by lia.
        reflexivity.
      + exact Hrd.
      + now rewrite compared_state_xfile.
    - intros j Hj. apply Hsame. lia. }
  eexists. split.
  { rewrite (xchk_rtsum_compare_through fuel sc sc1 Hlook).
    - rewrite Hblocks. reflexivity.
    - now apply (maps_pass fuel n sc off). }
  cbn [snd xchk_fblock_set_corrupt modify log_event set_flags sc_trace sm_flags].
  rewrite compared_state_trace, compared_state_flags, compared_state_ip.
  split; [|split].
  - unfold reads_upto. fold k'. rewrite <- app_assoc. reflexivity.
  - reflexivity.
  - intros j Hj Hin. unfold reads_upto in Hin. apply List.in_map_iff in Hin.
    destruct Hin as [i [[= <-] Hi]]. apply List.in_seq in Hi. lia.
Qed.

(** C6.  Before any block is compared the comparator checks the mappings of
    the summary file, the corrupt flag being clear on entry as it is when
    [xchk_rtsummary] calls it.  A mapping at or beyond the end of the file
    is reported at the end offset.  Otherwise the file must be one chain of
    written mappings from block 0 to its end: at the first block whose
    mapping is not a single written one (a hole, an unwritten or delayed
    extent) the comparator reports that block.  In both cases it marks the
    data fork of the summary inode corrupt at that offset and returns 0
    without reading any block.  When the chain reaches the end of the file
    the comparator goes on to compare the blocks. *)
Theorem rtsum_compare_mapping_gate `{env : xfs_env} (fuel : nat) (sc : xfs_scrub) :
  Z.land (sm_flags sc) XFS_SCRUB_OFLAG_CORRUPT = 0 ->
  (xfs_iext_lookup_extent (sc_ip sc) (rtsum_endoff sc) = true ->
   exists sc',
     xchk_rtsum_compare fuel sc = (Some 0, sc')
     /\ sc_trace sc'
        = sc_trace sc
          ++ [Ev_fblock_set_corrupt (i_ino (sc_ip sc)) XFS_DATA_FORK (rtsum_endoff sc)]
     /\ sm_flags sc' = Z.lor (sm_flags sc) XFS_SCRUB_OFLAG_CORRUPT)
  /\ (xfs_iext_lookup_extent (sc_ip sc) (rtsum_endoff sc) = false ->
      forall (n : nat) (off nmap : Z) (map : xfs_bmbt_irec),
        written_chain (sc_ip sc) (rtsum_endoff sc) 0 n off ->
        off < rtsum_endoff sc ->
        quiet (S n) (sc_signals sc) ->
        (n < fuel)%nat ->
        xfs_bmapi_read (sc_ip sc) off (rtsum_endoff sc - off) = (0, nmap, map) ->
        (nmap =? 1) && xfs_bmap_is_written_extent map = false ->
        exists sc',
          xchk_rtsum_compare fuel sc = (Some 0, sc')
          /\ sc_trace sc'
             = sc_trace sc ++ [Ev_fblock_set_corrupt (i_ino (sc_ip sc)) XFS_DATA_FORK off]
          /\ sm_flags sc' = Z.lor (sm_flags sc) XFS_SCRUB_OFLAG_CORRUPT)
  /\ (xfs_iext_lookup_extent (sc_ip sc) (rtsum_endoff sc) = false ->
      forall (n : nat) (off : Z),
        written_chain (sc_ip sc) (rtsum_endoff sc) 0 n off ->
        rtsum_endoff sc <= off ->
        quiet n (sc_signals sc) ->
        (n <= fuel)%nat ->
        xchk_rtsum_compare fuel sc
        = (Some (fst (xchk_rtsum_compare_blocks (Z.to_nat (rtsum_endoff sc)) 0 0
                        (set_signals (drop n (sc_signals sc)) sc))),
           snd (xchk_rtsum_compare_blocks (Z.to_nat (rtsum_endoff sc)) 0 0
                  (set_signals (drop n (sc_signals sc)) sc)))).
Proof.
  intros Hf. split; [|split].
  - intros Hlook. eexists. split; [now apply xchk_rtsum_compare_beyond_eof|].
    split; reflexivity.
  - intros Hlook n off nmap map Hch Hlt Hq Hfuel Hmap Hbad. eexists. split.
    + apply (xchk_rtsum_compare_return fuel sc _ 0 Hlook).
      now apply (maps_stop fuel n sc off nmap map).
    + split; reflexivity.
  - intros Hlook n off Hch Hend Hq Hfuel.
    apply (xchk_rtsum_compare_through fuel sc _ Hlook).
    now apply (maps_pass fuel n sc off).
Qed.

(** C9.  Cancellation is polled at the start of every free-extent record and
    at every turn of the loop over the mappings.  When the signal is raised
    there the visitor returns -EINTR having done nothing but take the
    signal; the walk of the bitmap ends with -EINTR after the records
    before; the comparator returns -EINTR; [xchk_rtsummary] hands -EINTR on.
    Neither the flags nor the trace change: no corruption is reported, and
    -EINTR is neither success nor the corruption error. *)
Theorem rtsum_cancellation `{env : xfs_env} :
  (forall (g : xfs_rtgroup) (rec : xfs_rtalloc_rec) (sc : xfs_scrub) (rest : list bool),
     sc_signals sc = true :: rest ->
     xchk_rtsum_record_free g rec sc = (- EINTR, set_signals rest sc))
  /\ (forall (sc : xfs_scrub) (l1 l2 : list xfs_rtalloc_rec) (rec : xfs_rtalloc_rec)
             (rest : list bool),
        XFS_FSB_TO_B mp (xfs_rtbitmap_blockcount mp) = i_disk_size (rtg_bitmap rtg) ->
        rtg_free rtg = l1 ++ rec :: l2 ->
        Forall (fun rec => rec_in_range rtg rec = true) l1 ->
        Forall rec_io_ok l1 ->
        quiet (length l1) (sc_signals sc) ->
        drop (length l1) (sc_signals sc) = true :: rest ->
        exists sc',
          xchk_rtsum_compute sc = (- EINTR, sc')
          /\ sm_flags sc' = sm_flags sc /\ sc_trace sc' = sc_trace sc
          /\ sc_xfile sc' = fold_left rtsum_bump l1 (sc_xfile sc))
  /\ (forall (fuel n : nat) (sc : xfs_scrub) (off : Z) (rest : list bool),
        xfs_iext_lookup_extent (sc_ip sc) (rtsum_endoff sc) = false ->
        Z.land (sm_flags sc) XFS_SCRUB_OFLAG_CORRUPT = 0 ->
        written_chain (sc_ip sc) (rtsum_endoff sc) 0 n off ->
        off < rtsum_endoff sc ->
        quiet n (sc_signals sc) ->
        drop n (sc_signals sc) = true :: rest ->
        (n < fuel)%nat ->
        xchk_rtsum_compare fuel sc = (Some (- EINTR), set_signals rest sc))
  /\ (forall (fuel : nat) (sc sc1 sc2 : xfs_scrub),
        geometry_ok sc ->
        xchk_metadata_inode_forks sc = (0, sc1) ->
        Z.land (sm_flags sc1) XFS_SCRUB_OFLAG_CORRUPT = 0 ->
        xchk_rtsum_compute sc1 = (- EINTR, sc2) ->
        xchk_rtsummary fuel sc = (Some (- EINTR), sc2))
  /\ (forall (sc : xfs_scrub) (rest : list bool),
        sm_flags (set_signals rest sc) = sm_flags sc
        /\ sc_trace (set_signals rest sc) = sc_trace sc
        /\ sc_xfile (set_signals rest sc) = sc_xfile sc)
  /\ - EINTR <> 0 /\ - EINTR <> - EFSCORRUPTED.
Proof.
  split; [|split; [|split; [|split; [|split; [|split]]]]].
  - intros g rec sc rest H. now apply record_free_cancelled.
  - intros sc l1 l2 rec rest Hsize Hfree Hr Hio Hq Hsig. eexists. split.
    + now apply (xchk_rtsum_compute_cancelled sc l1 l2 rec rest).
    + repeat split; reflexivity.
  - intros fuel n sc off rest Hlook Hf Hch Hlt Hq Hsig Hfuel.
    apply (xchk_rtsum_compare_return fuel sc _ _ Hlook).
    now apply (maps_interrupted fuel n sc off rest).
  - intros fuel sc sc1 sc2 Hgeo Hforks Hf Hcomp.
    rewrite xchk_rtsummary_geometry_ok by assumption.
    apply (xchk_rtsummary_recompute_error fuel sc sc1 sc2 (- EINTR)); try assumption;
      discriminate.
  - intros sc rest. repeat split; reflexivity.
  - discriminate.
  - discriminate.
Qed.

(** C5.  When the walk of the bitmap comes to a free extent that is out of
    range, the visitor reports the bitmap inode (a cross-reference report)
    and returns -EFSCORRUPTED, which ends the walk: the compute stage returns
    -EFSCORRUPTED with only the records before it in the scratch file.
    [xchk_rtsummary] then marks the bitmap inode corrupt and returns 0; no
    report names the summary inode and no block is compared. *)
Theorem rtsum_out_of_range_extent `{env : xfs_env} (fuel : nat) (sc sc1 : xfs_scrub)
    (l1 l2 : list xfs_rtalloc_rec) (bad : xfs_rtalloc_rec) :
  geometry_ok sc ->
  xchk_metadata_inode_forks sc = (0, sc1) ->
  Z.land (sm_flags sc1) XFS_SCRUB_OFLAG_CORRUPT = 0 ->
  XFS_FSB_TO_B mp (xfs_rtbitmap_blockcount mp) = i_disk_size (rtg_bitmap rtg) ->
  rtg_free rtg = l1 ++ bad :: l2 ->
  Forall (fun rec => rec_in_range rtg rec = true) l1 ->
  Forall rec_io_ok l1 ->
  rec_in_range rtg bad = false ->
  quiet (S (length l1)) (sc_signals sc1) ->
  xchk_rtsum_record_free rtg bad (scan_state sc1 l1)
  = (- EFSCORRUPTED,
     snd (xchk_ino_xref_set_corrupt (i_ino (rtg_bitmap rtg))
            (after_checkpoint (scan_state sc1 l1))))
  /\ fst (xchk_rtsum_compute sc1) = - EFSCORRUPTED
  /\ exists sc',
       xchk_rtsummary fuel sc = (Some 0, sc')
       /\ sc_trace sc'
          = sc_trace sc1
            ++ [Ev_ino_xref_set_corrupt (i_ino (rtg_bitmap rtg));
                Ev_ino_set_corrupt (i_ino (rtg_bitmap rtg))]
       /\ sm_flags sc'
          = Z.lor (Z.lor (sm_flags sc1) XFS_SCRUB_OFLAG_XCORRUPT) XFS_SCRUB_OFLAG_CORRUPT
       /\ sc_xfile sc' = fold_left rtsum_bump l1 (sc_xfile sc1).
Proof.
  intros Hgeo Hforks Hf Hsize Hfree Hr Hio Hbad Hq.
  pose proof (xchk_rtsum_compute_out_of_range sc1 l1 l2 bad Hsize Hfree Hr Hio Hbad Hq)
    as Hcomp.
  split; [|split].
  - apply record_free_out_of_range; [|assumption].
    replace (S (length l1)) with (length l1 + 1)%nat in Hq by lia.
    apply quiet_app in Hq. exact (proj2 Hq).
  - now rewrite Hcomp.
  - eexists. split.
    + rewrite xchk_rtsummary_geometry_ok by assumption.
      exact (xchk_rtsummary_recompute_corrupt fuel sc sc1 _ Hforks Hf Hcomp).
    + cbn. rewrite <- app_assoc. repeat split; reflexivity.
Qed.

(** *** The geometry checks *)

Lemma land_blockmask (size blocklog : Z) :
  0 <= blocklog -> Z.land size (2 ^ blocklog - 1) = size mod 2 ^ blocklog.
Proof.
  intros H. rewrite <- Z.land_ones by assumption. f_equal.
  rewrite Z.ones_equiv. lia.
Qed.

(** C4.  [xchk_rtsummary] validates the geometry by five checks in this
    order: the extent count of the superblock against the recomputed one
    (the bitmap inode is at fault), then the number of summary levels, the
    number of summary blocks, the length of the summary file being a
    multiple of the block size, and that length being at least the
    recomputed summary blocks in bytes (the summary inode is at fault).  The
    first check that fails marks its inode corrupt and the function returns
    0 with nothing else done; when none fails, a longer file included, the
    function goes on to the fork scrubber and the recomputation. *)
Theorem xchk_rtsummary_geometry `{env : xfs_env} (fuel : nat) (sc : xfs_scrub) :
  0 <= sb_blocklog mp ->
  m_blockmask mp = 2 ^ sb_blocklog mp - 1 ->
  xchk_rtsummary fuel sc
  = match geometry_verdict sc with
    | Some ino => (Some 0, snd (xchk_ino_set_corrupt ino sc))
    | None => xchk_rtsummary_recompute fuel sc
    end.
Proof.
  intros Hlog Hmask.
  unfold xchk_rtsummary, xchk_rtsummary_file_length, geometry_verdict. scrub_unfold.
  destruct (sb_rextents mp =? rextents (sc_buf sc)); cbn [negb]; [|reflexivity].
  destruct (m_rsumlevels mp =? rsumlevels (sc_buf sc)); cbn [negb]; [|reflexivity].
  destruct (m_rsumblocks mp =? rsumblocks (sc_buf sc)); cbn [negb]; [|reflexivity].
  rewrite Hmask, land_blockmask by assumption.
  destruct (i_disk_size (rtg_summary rtg) mod 2 ^ sb_blocklog mp =? 0);
    cbn [negb]; [|reflexivity].
  unfold XFS_FSB_TO_B. rewrite Z.shiftl_mul_pow2 by assumption.
  destruct (i_disk_size (rtg_summary rtg) <? rsumblocks (sc_buf sc) * 2 ^ sb_blocklog mp);
    reflexivity.
Qed.

(** *** A volume without realtime blocks *)

Lemma setup_success `{env : xfs_env} (o : xchk_setup_outcomes) (sc0 sc : xfs_scrub) :
  xchk_setup_rtsummary o sc0 = (0, sc) ->
  sc_buf sc
  = (if sb_rblocks mp =? 0 then fun b => b else set_geometry)
      ((if xchk_could_repair o then set_resblks (xrep_setup_rtsummary_resblks o)
        else fun b => b) rts_zalloc).
Proof.
  unfold xchk_setup_rtsummary. scrub_unfold. cbn [EINTR].
  destruct (kvzalloc_fails o); [discriminate|].
  destruct (Z.eqb_spec (xchk_rtgroup_init_error o) 0) as [E1|E1]; cbn [negb];
    [|intros [= H _]; contradiction].
  destruct (xchk_could_repair o).
  - destruct (Z.eqb_spec (xrep_setup_rtsummary_error o) 0) as [E2|E2]; cbn [negb];
      [|intros [= H _]; contradiction].
    destruct (Z.eqb_spec (xfile_create_error o) 0) as [E3|E3]; cbn [negb];
      [|intros [= H _]; contradiction].
    destruct (Z.eqb_spec (xchk_trans_alloc_error o) 0) as [E4|E4]; cbn [negb];
      [|intros [= H _]; contradiction].
    destruct (Z.eqb_spec (xchk_install_live_inode_error o) 0) as [E5|E5]; cbn [negb];
      [|intros [= H _]; contradiction].
    destruct (Z.eqb_spec (xchk_ino_dqattach_error o) 0) as [E6|E6]; cbn [negb];
      [|intros [= H _]; contradiction].
    destruct (sb_rblocks mp =? 0); cbn [negb]; intros [= <-]; reflexivity.
  - cbn [Z.eqb negb].
    destruct (Z.eqb_spec (xfile_create_error o) 0) as [E3|E3]; cbn [negb];
      [|intros [= H _]; contradiction].
    destruct (Z.eqb_spec (xchk_trans_alloc_error o) 0) as [E4|E4]; cbn [negb];
      [|intros [= H _]; contradiction].
    destruct (Z.eqb_spec (xchk_install_live_inode_error o) 0) as [E5|E5]; cbn [negb];
      [|intros [= H _]; contradiction].
    destruct (Z.eqb_spec (xchk_ino_dqattach_error o) 0) as [E6|E6]; cbn [negb];
      [|intros [= H _]; contradiction].
    destruct (sb_rblocks mp =? 0); cbn [negb]; intros [= <-]; reflexivity.
Qed.

(** C10.  When the superblock says the realtime volume has no blocks, a
    setup that succeeds leaves the recomputed extent count, bitmap block
    count, summary block count and summary level count at the zero of the
    allocation.  The three comparisons of persisted against recomputed
    geometry in [xchk_rtsummary] then pass exactly when the persisted
    extent count, summary level count and summary block count are all zero,
    the check going on to the length of the summary file; a nonzero extent
    count marks the bitmap inode corrupt, a nonzero level or block count the
    summary inode, and the check returns 0. *)
Theorem rtsummary_zero_size_volume `{env : xfs_env} (o : xchk_setup_outcomes)
    (fuel : nat) (sc0 sc : xfs_scrub) :
  sb_rblocks mp = 0 ->
  xchk_setup_rtsummary o sc0 = (0, sc) ->
  (rextents (sc_buf sc) = 0 /\ rbmblocks (sc_buf sc) = 0
   /\ rsumblocks (sc_buf sc) = 0 /\ rsumlevels (sc_buf sc) = 0)
  /\ (sb_rextents mp = 0 /\ m_rsumlevels mp = 0 /\ m_rsumblocks mp = 0 ->
      xchk_rtsummary fuel sc = xchk_rtsummary_file_length fuel sc)
  /\ (sb_rextents mp <> 0 ->
      xchk_rtsummary fuel sc
      = (Some 0, snd (xchk_ino_set_corrupt (i_ino (rtg_bitmap rtg)) sc)))
  /\ (sb_rextents mp = 0 -> m_rsumlevels mp <> 0 \/ m_rsumblocks mp <> 0 ->
      xchk_rtsummary fuel sc
      = (Some 0, snd (xchk_ino_set_corrupt (i_ino (rtg_summary rtg)) sc))).
Proof.
  intros Hrb Hsetup. apply setup_success in Hsetup.
  rewrite Hrb in Hsetup. cbn [Z.eqb] in Hsetup.
  assert (Hz : rextents (sc_buf sc) = 0 /\ rbmblocks (sc_buf sc) = 0
               /\ rsumblocks (sc_buf sc) = 0 /\ rsumlevels (sc_buf sc) = 0).
  { rewrite Hsetup. destruct (xchk_could_repair o); repeat split; reflexivity. }
  destruct Hz as (Hz1 & Hz2 & Hz3 & Hz4).
  split; [repeat split; assumption|].
  unfold xchk_rtsummary. scrub_unfold. rewrite Hz1, Hz3, Hz4.
  split; [|split].
  - intros (H1 & H2 & H3). now rewrite H1, H2, H3.
  - intros H1. destruct (Z.eqb_spec (sb_rextents mp) 0); [contradiction|reflexivity].
  - intros H1 H23. rewrite H1. cbn [Z.eqb negb].
    destruct (Z.eqb_spec (m_rsumlevels mp) 0) as [E2|E2]; cbn [negb]; [|reflexivity].
    destruct (Z.eqb_spec (m_rsumblocks mp) 0) as [E3|E3]; cbn [negb]; [|reflexivity].
    destruct H23; contradiction.
Qed.

(** ** The properties on the sample volumes *)

(** Four single written blocks make the chain of the sample summary file. *)
Lemma demo_chain (e : xfs_env) :
  xfs_bmapi_read (xfs_env := e) = demo_bmapi_read (fun _ => true) ->
  written_chain (env := e) demo_rsumip 4 0 4 4.
Proof.
  intros H.
  eapply chain_step with (map := {| br_startoff := 0; br_startblock := 100;
                                    br_blockcount := 1; br_state := XFS_EXT_NORM |});
    [reflexivity | now rewrite H | reflexivity |].
  eapply chain_step with (map := {| br_startoff := 1; br_startblock := 101;
                                    br_blockcount := 1; br_state := XFS_EXT_NORM |});
    [reflexivity | now rewrite H | reflexivity |].
  eapply chain_step with (map := {| br_startoff := 2; br_startblock := 102;
                                    br_blockcount := 1; br_state := XFS_EXT_NORM |});
    [reflexivity | now rewrite H | reflexivity |].
  eapply chain_step with (map := {| br_startoff := 3; br_startblock := 103;
                                    br_blockcount := 1; br_state := XFS_EXT_NORM |});
    [reflexivity | now rewrite H | reflexivity |].
  apply chain_here.
Qed.

(** Block 1 of the summary on disk is wrong: the blocks 0 and 1 are read,
    block 1 is reported, none of the blocks 2 and 3 is read. *)
Lemma rtsum_compare_first_mismatch_witness :
  exists sc',
    xchk_rtsum_compare (env := demo_env_bad_block) 4 (demo_sc []) = (Some 0, sc')
    /\ sc_trace sc'
       = [] ++ reads_upto 1 ++ [Ev_fblock_set_corrupt 130 XFS_DATA_FORK 1]
    /\ sm_flags sc' = Z.lor 0 XFS_SCRUB_OFLAG_CORRUPT
    /\ (forall j, 1 < j -> ~ In (Ev_rtsummary_read_buf j) (reads_upto 1)).
Proof.
  apply (rtsum_compare_first_mismatch (env := demo_env_bad_block) 4 4 (demo_sc []) 4 1).
  - reflexivity.
  - reflexivity.
  - apply demo_chain. reflexivity.
  - vm_compute. discriminate.
  - apply quiet_nil.
  - lia.
  - vm_compute. split; [discriminate | reflexivity].
  - intros j Hj. assert (j = 0) by lia. subst j. repeat split; reflexivity.
  - split; reflexivity.
  - vm_compute. discriminate.
Defined.

(** The sample volume passes the five checks; with 40 units in the
    superblock the first check fails. *)
Lemma xchk_rtsummary_geometry_witness :
  xchk_rtsummary (env := demo_env1) 4 (demo_sc [])
  = xchk_rtsummary_recompute (env := demo_env1) 4 (demo_sc [])
  /\ xchk_rtsummary (env := demo_env_short_bitmap) 4 (demo_sc [])
     = (Some 0, snd (xchk_ino_set_corrupt 129 (demo_sc []))).
Proof.
  split.
  - apply (xchk_rtsummary_geometry (env := demo_env1) 4 (demo_sc []));
      [vm_compute; discriminate | reflexivity].
  - apply (xchk_rtsummary_geometry (env := demo_env_short_bitmap) 4 (demo_sc []));
      [vm_compute; discriminate | reflexivity].
Defined.

(** The second free extent runs past the end of the volume. *)
Lemma rtsum_out_of_range_extent_witness :
  exists sc',
    xchk_rtsummary (env := demo_env_bad_extent) 4 (demo_sc []) = (Some 0, sc')
    /\ sc_trace sc' = [] ++ [Ev_ino_xref_set_corrupt 129; Ev_ino_set_corrupt 129]
    /\ sm_flags sc'
       = Z.lor (Z.lor 0 XFS_SCRUB_OFLAG_XCORRUPT) XFS_SCRUB_OFLAG_CORRUPT
    /\ sc_xfile sc'
       = fold_left (rtsum_bump (env := demo_env_bad_extent)) [demo_rec_a] ∅.
Proof.
  apply (rtsum_out_of_range_extent (env := demo_env_bad_extent) 4
           (demo_sc []) (demo_sc []) [demo_rec_a] [] demo_rec_bad).
  - repeat split; try reflexivity; try (vm_compute; discriminate).
  - reflexivity.
  - reflexivity.
  - reflexivity.
  - reflexivity.
  - repeat constructor.
  - repeat constructor.
  - reflexivity.
  - apply quiet_nil.
Defined.

(** A mapping beyond the end of the file is reported at block 4; a hole at
    block 2 is reported at block 2; the fully written file is compared. *)
Lemma rtsum_compare_mapping_gate_witness :
  (exists sc',
     xchk_rtsum_compare (env := demo_env_beyond) 4 (demo_sc []) = (Some 0, sc')
     /\ sc_trace sc' = [] ++ [Ev_fblock_set_corrupt 130 XFS_DATA_FORK 4]
     /\ sm_flags sc' = Z.lor 0 XFS_SCRUB_OFLAG_CORRUPT)
  /\ (exists sc',
        xchk_rtsum_compare (env := demo_env_hole) 4 (demo_sc []) = (Some 0, sc')
        /\ sc_trace sc' = [] ++ [Ev_fblock_set_corrupt 130 XFS_DATA_FORK 2]
        /\ sm_flags sc' = Z.lor 0 XFS_SCRUB_OFLAG_CORRUPT)
  /\ xchk_rtsum_compare (env := demo_env1) 4 (demo_sc [])
     = (Some (fst (xchk_rtsum_compare_blocks (env := demo_env1) 4 0 0 (demo_sc []))),
        snd (xchk_rtsum_compare_blocks (env := demo_env1) 4 0 0 (demo_sc []))).
Proof.
  split; [|split].
  - apply (proj1 (rtsum_compare_mapping_gate (env := demo_env_beyond) 4 (demo_sc [])
                    eq_refl)).
    reflexivity.
  - apply (proj1 (proj2 (rtsum_compare_mapping_gate (env := demo_env_hole) 4
                           (demo_sc []) eq_refl))
             eq_refl 2%nat 2 1
             {| br_startoff := 2; br_startblock := HOLESTARTBLOCK;
                br_blockcount := 1; br_state := XFS_EXT_NORM |}).
    + eapply chain_step with (map := {| br_startoff := 0; br_startblock := 100;
                                        br_blockcount := 1; br_state := XFS_EXT_NORM |});
        [reflexivity | reflexivity | reflexivity |].
      eapply chain_step with (map := {| br_startoff := 1; br_startblock := 101;
                                        br_blockcount := 1; br_state := XFS_EXT_NORM |});
        [reflexivity | reflexivity | reflexivity |].
      apply chain_here.
    + reflexivity.
    + apply quiet_nil.
    + lia.
    + reflexivity.
    + reflexivity.
  - apply (proj2 (proj2 (rtsum_compare_mapping_gate (env := demo_env1) 4
                           (demo_sc []) eq_refl))
             eq_refl 4%nat 4).
    + apply demo_chain. reflexivity.
    + vm_compute. discriminate.
    + apply quiet_nil.
    + lia.
Defined.

(** With 40 units in the superblock the bitmap file is too short and the
    compute stage gives up at once; on the sample volume it is the walk. *)
Lemma rtsum_compute_size_precheck_witness :
  xchk_rtsum_compute (env := demo_env_short_bitmap) (demo_sc [])
  = (- EFSCORRUPTED, demo_sc [])
  /\ xchk_rtsum_compute (env := demo_env1) (demo_sc [])
     = xfs_rtalloc_query_all (rtg (xfs_env := demo_env1))
         (xchk_rtsum_record_free (env := demo_env1)) (demo_sc []).
Proof.
  split.
  - apply (proj1 (rtsum_compute_size_precheck (env := demo_env_short_bitmap) (demo_sc []))).
    vm_compute. discriminate.
  - apply (proj2 (rtsum_compute_size_precheck (env := demo_env1) (demo_sc []))).
    reflexivity.
Defined.

(** The signal is raised at the second checkpoint: after the first of two
    free extents, and after the first of four mappings. *)
Lemma rtsum_cancellation_witness :
  xchk_rtsum_record_free (env := demo_env1) (rtg (xfs_env := demo_env1)) demo_rec_a
    (demo_sc [true])
  = (- EINTR, set_signals [] (demo_sc [true]))
  /\ (exists sc',
        xchk_rtsum_compute (env := demo_env_two) (demo_sc [false; true]) = (- EINTR, sc')
        /\ sm_flags sc' = 0 /\ sc_trace sc' = []
        /\ sc_xfile sc' = fold_left (rtsum_bump (env := demo_env_two)) [demo_rec_a] ∅)
  /\ xchk_rtsum_compare (env := demo_env1) 4 (demo_sc [false; true])
     = (Some (- EINTR), set_signals [] (demo_sc [false; true]))
  /\ xchk_rtsummary (env := demo_env1) 4 (demo_sc [true])
     = (Some (- EINTR), set_signals [] (demo_sc [true])).
Proof.
  split; [|split; [|split]].
  - apply (proj1 (rtsum_cancellation (env := demo_env1))). reflexivity.
  - apply (proj1 (proj2 (rtsum_cancellation (env := demo_env_two)))
             (demo_sc [false; true]) [demo_rec_a] [] demo_rec_b []).
    + reflexivity.
    + reflexivity.
    + repeat constructor.
    + repeat constructor.
    + repeat constructor.
    + reflexivity.
  - apply (proj1 (proj2 (proj2 (rtsum_cancellation (env := demo_env1))))
             4%nat 1%nat (demo_sc [false; true]) 1 []).
    + reflexivity.
    + reflexivity.
    + eapply chain_step with (map := {| br_startoff := 0; br_startblock := 100;
                                        br_blockcount := 1; br_state := XFS_EXT_NORM |});
        [reflexivity | reflexivity | reflexivity |].
      apply chain_here.
    + reflexivity.
    + repeat constructor.
    + reflexivity.
    + lia.
  - apply (proj1 (proj2 (proj2 (proj2 (rtsum_cancellation (env := demo_env1)))))
             4%nat (demo_sc [true]) (demo_sc [true])).
    + repeat split; try reflexivity; try (vm_compute; discriminate).
    + reflexivity.
    + reflexivity.
    + reflexivity.
Defined.

(** No realtime blocks, but 8 allocation units in the superblock: after the
    setup the recomputed geometry is zero and the bitmap inode is marked. *)
Lemma rtsummary_zero_size_volume_witness :
  rextents (sc_buf (snd (xchk_setup_rtsummary (env := demo_env_empty) demo_setup_ok
                           (demo_sc [])))) = 0
  /\ xchk_rtsummary (env := demo_env_empty) 4
       (snd (xchk_setup_rtsummary (env := demo_env_empty) demo_setup_ok (demo_sc [])))
     = (Some 0,
        snd (xchk_ino_set_corrupt 129
               (snd (xchk_setup_rtsummary (env := demo_env_empty) demo_setup_ok
                       (demo_sc []))))).
Proof.
  destruct (rtsummary_zero_size_volume (env := demo_env_empty) demo_setup_ok 4
              (demo_sc [])
              (snd (xchk_setup_rtsummary (env := demo_env_empty) demo_setup_ok
                      (demo_sc []))))
    as ((Hz & _) & _ & Hbad & _).
  - reflexivity.
  - reflexivity.
  - split; [exact Hz | apply Hbad; discriminate].
Defined.

(** ** Further properties *)

(** *** Summary words in the scratch file *)

Lemma xfile_read_succ (xf : gmap Z byte) (n : nat) (pos : Z) :
  xfile_read xf (S n) pos = xfile_byte xf pos :: xfile_read xf n (pos + 1).
Proof.
  unfold xfile_read. cbn [seq map]. rewrite Z.add_0_r. f_equal.
  rewrite <- seq_shift, map_map. apply map_ext. intros i. f_equal. lia.
Qed.

Lemma xfile_read_words (xf : gmap Z byte) (n : nat) :
  forall w : Z,
    xfile_read xf (4 * n) (4 * w)
    = flat_map raw_to_bytes
        (map (fun i => xfile_word xf (w + Z.of_nat i)) (seq 0 n)).
Proof.
  induction n as [|n IH]; intros w; [reflexivity|].
  replace (4 * S n)%nat with (S (S (S (S (4 * n))))) by lia.
  rewrite !xfile_read_succ. cbn [seq map flat_map].
  rewrite Z.add_0_r, xfile_word_bytes. cbn [raw_to_bytes raw0 raw1 raw2 raw3 app].
  replace (4 * w + 1 + 1) with (4 * w + 2) by lia.
  replace (4 * w + 2 + 1) with (4 * w + 3) by lia.
  replace (4 * w + 3 + 1) with (4 * (w + 1)) by lia.
  rewrite IH. do 5 f_equal.
  rewrite <- seq_shift, map_map. apply map_ext. intros i. f_equal. lia.
Qed.

(** X3.  A summary word stored with [xfsum_store] is the word [xfsum_load]
    reads back at the same offset, and at every offset whose 32-bit byte
    position falls on the same word; at the offsets that fall on another
    word the words read as before, and neither call touches the flags or the
    trace. *)
Theorem xfsum_store_load `{env : xfs_env} (sumoff sumoff' : Z)
    (v v0 : xfs_suminfo_raw) (sc : xfs_scrub) :
  xfile_access_error (sum_pos sumoff) sizeof_suminfo_raw = 0 ->
  xfile_access_error (sum_pos sumoff') sizeof_suminfo_raw = 0 ->
  fst (xfsum_store sumoff v sc) = 0
  /\ xfsum_load sumoff v0 (snd (xfsum_store sumoff v sc))
     = ((0, v), snd (xfsum_store sumoff v sc))
  /\ (sum_word sumoff' = sum_word sumoff ->
      xfsum_load sumoff' v0 (snd (xfsum_store sumoff v sc))
      = ((0, v), snd (xfsum_store sumoff v sc)))
  /\ (sum_word sumoff' <> sum_word sumoff ->
      fst (xfsum_load sumoff' v0 (snd (xfsum_store sumoff v sc)))
      = fst (xfsum_load sumoff' v0 sc))
  /\ sm_flags (snd (xfsum_store sumoff v sc)) = sm_flags sc
  /\ sc_trace (snd (xfsum_store sumoff v sc)) = sc_trace sc.
Proof.
  intros H H'. rewrite (xfsum_store_ok sumoff v sc H). cbn [fst snd].
  split; [reflexivity|]. split; [|split; [|split; [|split; reflexivity]]].
  - rewrite xfsum_load_ok by exact H. cbn [sc_xfile set_xfile].
    now rewrite sum_pos_word, xfile_word_write_eq.
  - intros He. rewrite xfsum_load_ok by exact H'. cbn [sc_xfile set_xfile].
    now rewrite He, sum_pos_word, xfile_word_write_eq.
  - intros Hne. rewrite !xfsum_load_ok by exact H'. cbn [fst sc_xfile set_xfile].
    now rewrite sum_pos_word, xfile_word_write_ne.
Qed.

(** A store at word 2 is read back at word 2, and at word 2^30 + 2, whose
    byte position wraps onto it. *)
Lemma xfsum_store_load_witness :
  xfsum_load (env := demo_env1) 2 raw_zero
    (snd (xfsum_store (env := demo_env1) 2 (mk_raw x2a x00 x00 x00) (demo_sc [])))
  = ((0, mk_raw x2a x00 x00 x00),
     snd (xfsum_store (env := demo_env1) 2 (mk_raw x2a x00 x00 x00) (demo_sc [])))
  /\ xfsum_load (env := demo_env1) (2 ^ 30 + 2) raw_zero
       (snd (xfsum_store (env := demo_env1) 2 (mk_raw x2a x00 x00 x00) (demo_sc [])))
     = ((0, mk_raw x2a x00 x00 x00),
        snd (xfsum_store (env := demo_env1) 2 (mk_raw x2a x00 x00 x00) (demo_sc []))).
Proof.
  destruct (xfsum_store_load (env := demo_env1) 2 (2 ^ 30 + 2)
              (mk_raw x2a x00 x00 x00) raw_zero (demo_sc []))
    as (_ & Hsame & Halias & _).
  - reflexivity.
  - reflexivity.
  - split; [exact Hsame | apply Halias; reflexivity].
Defined.

(** X4.  For a run of [nr_words] words from [sumoff] that lies within the
    2^30 words a 32-bit byte position can reach, [xfsum_copyout] hands over,
    in order, the bytes of the words that [xfsum_load] reads at [sumoff],
    [sumoff + 1], ..., and leaves the scrub context as it was. *)
Theorem xfsum_copyout_words `{env : xfs_env} (sumoff nr_words : Z)
    (buf : list byte) (sc : xfs_scrub) :
  0 <= nr_words ->
  0 <= sumoff ->
  sumoff + nr_words <= 2 ^ 30 ->
  nr_words < 2 ^ 30 ->
  xfile_access_error (sum_pos sumoff) (words_len nr_words) = 0 ->
  (forall i, 0 <= i < nr_words ->
     xfile_access_error (sum_pos (sumoff + i)) sizeof_suminfo_raw = 0) ->
  xfsum_copyout sumoff buf nr_words sc
  = ((0, flat_map raw_to_bytes
           (map (fun i => snd (fst (xfsum_load (sumoff + Z.of_nat i) raw_zero sc)))
                (seq 0 (Z.to_nat nr_words)))), sc).
Proof.
  intros Hn Hs Hfit Hlen Hio Hw. unfold xfsum_copyout, xfile_load. rewrite Hio.
  cbn [Z.eqb]. do 2 f_equal.
  destruct (Z.eq_dec nr_words 0) as [->|Hpos]; [reflexivity|].
  assert (Hl : words_len nr_words = 4 * nr_words).
  { unfold words_len, u32, XFS_WORDLOG. rewrite Z.shiftl_mul_pow2 by lia.
    change (2 ^ 2) with 4. change (2 ^ 32) with 4294967296.
    change (2 ^ 30) with 1073741824 in *. rewrite Z.mod_small; lia. }
  assert (Hp : sum_pos sumoff = 4 * sumoff).
  { rewrite sum_pos_word, sum_word_small by lia.
    unfold XFS_WORDLOG. rewrite Z.shiftl_mul_pow2; lia. }
  rewrite Hl, Hp.
  replace (Z.to_nat (4 * nr_words)) with (4 * Z.to_nat nr_words)%nat by lia.
  rewrite xfile_read_words. f_equal. apply map_ext_in. intros i Hi.
  apply in_seq in Hi. rewrite xfsum_load_ok by (apply Hw; lia).
  cbn [fst snd]. now rewrite sum_word_small by lia.
Qed.

Lemma xfsum_copyout_words_witness :
  xfsum_copyout (env := demo_env1) 1 [] 2
    (snd (xfsum_store (env := demo_env1) 2 (mk_raw x2a x00 x00 x00) (demo_sc [])))
  = ((0, [x00; x00; x00; x00; x2a; x00; x00; x00]),
     snd (xfsum_store (env := demo_env1) 2 (mk_raw x2a x00 x00 x00) (demo_sc []))).
Proof.
  apply (xfsum_copyout_words (env := demo_env1) 1 2 []
           (snd (xfsum_store (env := demo_env1) 2 (mk_raw x2a x00 x00 x00) (demo_sc [])))).
  - discriminate.
  - discriminate.
  - discriminate.
  - reflexivity.
  - reflexivity.
  - intros i _. reflexivity.
Defined.

(** *** The recomputation: failures and invariants *)

Section ScanExtras.
Context {env : xfs_env}.

Lemma xfsum_load_fail (sumoff : Z) (v0 : xfs_suminfo_raw) (sc : xfs_scrub) :
  xfile_access_error (sum_pos sumoff) sizeof_suminfo_raw <> 0 ->
  xfsum_load sumoff v0 sc
  = ((xfile_access_error (sum_pos sumoff) sizeof_suminfo_raw, v0), sc).
Proof.
  intros H. unfold xfsum_load, xfile_load. scrub_unfold.
  destruct (Z.eqb_spec (xfile_access_error (sum_pos sumoff)
                          sizeof_suminfo_raw) 0); [contradiction|].
  now rewrite raw_to_of_bytes.
Qed.

Lemma record_free_io_error (g : xfs_rtgroup) (rec : xfs_rtalloc_rec) (sc : xfs_scrub) :
  quiet 1 (sc_signals sc) ->
  rec_in_range g rec = true ->
  xfile_access_error (sum_pos (rtsum_offs rec)) sizeof_suminfo_raw <> 0 ->
  xchk_rtsum_record_free g rec sc
  = (xfile_access_error (sum_pos (rtsum_offs rec)) sizeof_suminfo_raw,
     after_checkpoint sc).
Proof.
  intros Hq Hr Hio. unfold xchk_rtsum_record_free. scrub_unfold.
  rewrite xchk_should_terminate_quiet by assumption.
  unfold rec_in_range in Hr. rewrite Hr. cbn [negb]. cbv beta iota.
  fold (rtsum_offs rec).
  rewrite xfsum_load_fail by exact Hio.
  destruct (Z.eqb_spec (xfile_access_error (sum_pos (rtsum_offs rec))
                          sizeof_suminfo_raw) 0); [contradiction | reflexivity].
Qed.

Lemma land_lor_xcorrupt (f : Z) :
  Z.land (Z.lor f XFS_SCRUB_OFLAG_XCORRUPT) XFS_SCRUB_OFLAG_CORRUPT
  = Z.land f XFS_SCRUB_OFLAG_CORRUPT.
Proof.
  rewrite Z.land_lor_distr_l.
  change (Z.land XFS_SCRUB_OFLAG_XCORRUPT XFS_SCRUB_OFLAG_CORRUPT) with 0.
  apply Z.lor_0_r.
Qed.

Lemma should_terminate_frame (error : Z) (sc : xfs_scrub) :
  snd (xchk_should_terminate error sc)
  = set_signals (sc_signals (snd (xchk_should_terminate error sc))) sc.
Proof.
  destruct sc as [ip f xf b s t]. unfold xchk_should_terminate.
  cbn [sc_signals]. destruct s as [|[|] rest]; reflexivity.
Qed.

Lemma record_free_frame (g : xfs_rtgroup) (rec : xfs_rtalloc_rec) (sc : xfs_scrub) :
  scan_frame g sc (snd (xchk_rtsum_record_free g rec sc))
  /\ (fst (xchk_rtsum_record_free g rec sc) = 0 ->
      sm_flags (snd (xchk_rtsum_record_free g rec sc)) = sm_flags sc
      /\ sc_trace (snd (xchk_rtsum_record_free g rec sc)) = sc_trace sc).
Proof.
  unfold xchk_rtsum_record_free. scrub_unfold.
  pose proof (should_terminate_frame 0 sc) as Hst.
  destruct (xchk_should_terminate 0 sc) as [[stop error] sc1] eqn:E1.
  cbn [snd] in Hst. rewrite Hst.
  set (s := sc_signals sc1). clearbody s. clear Hst E1 sc1.
  destruct stop.
  { cbn [fst snd]. unfold scan_frame. cbn. auto 10. }
  destruct (xfs_verify_rtbext mp (xfs_rtx_to_rtb g (ar_startext rec))
              (xfs_rtxlen_to_extlen mp (ar_extcount rec))); cbn [negb].
  - fold (rtsum_offs rec).
    destruct (Z.eq_dec (xfile_access_error (sum_pos (rtsum_offs rec))
                          sizeof_suminfo_raw) 0) as [Hio|Hio].
    + rewrite xfsum_load_ok by exact Hio. cbn [negb Z.eqb]. cbv beta iota.
      destruct (xchk_rtsum_inc _ _ _) as [value v].
      rewrite xfsum_store_ok by exact Hio.
      cbn [fst snd]. unfold scan_frame. cbn. auto 10.
    + rewrite xfsum_load_fail by exact Hio.
      destruct (Z.eqb_spec (xfile_access_error (sum_pos (rtsum_offs rec))
                              sizeof_suminfo_raw) 0); [contradiction|].
      cbn [negb fst snd]. unfold scan_frame. cbn. auto 10.
  - unfold xchk_ino_xref_set_corrupt, modify, scan_frame.
    cbn [fst snd sc_ip sc_buf sm_flags sc_trace log_event set_flags set_signals].
    split; [|discriminate].
    split; [reflexivity|]. split; [reflexivity|].
    split; [apply land_lor_xcorrupt|]. right. split; reflexivity.
Qed.

Lemma query_records_frame (g : xfs_rtgroup) (recs : list xfs_rtalloc_rec) :
  forall sc : xfs_scrub,
    scan_frame g sc (snd (rtalloc_query_records xchk_rtsum_record_free g recs sc))
    /\ (fst (rtalloc_query_records xchk_rtsum_record_free g recs sc) = 0 ->
        sm_flags (snd (rtalloc_query_records xchk_rtsum_record_free g recs sc))
        = sm_flags sc
        /\ sc_trace (snd (rtalloc_query_records xchk_rtsum_record_free g recs sc))
           = sc_trace sc).
Proof.
  induction recs as [|r rest IH]; intros sc.
  - cbn. unfold scan_frame. auto 10.
  - cbn [rtalloc_query_records]. unfold bind.
    destruct (record_free_frame g r sc) as [Hfr H0].
    destruct (xchk_rtsum_record_free g r sc) as [error sc1]. cbn [fst snd] in *.
    destruct (Z.eqb_spec error 0) as [->|Hne]; cbn [negb].
    + destruct (H0 eq_refl) as [Hf Ht]. destruct (IH sc1) as [Hfr' H0'].
      destruct Hfr as (Hip & Hbuf & Hland & _).
      split.
      * destruct Hfr' as (Hip' & Hbuf' & Hland' & Hev').
        unfold scan_frame. rewrite Hip', Hbuf', Hland', Hip, Hbuf, Hland.
        rewrite <- Hf, <- Ht. auto.
      * intros H. destruct (H0' H) as [Hf' Ht']. split; congruence.
    + unfold ret. cbn [fst snd]. split; [exact Hfr | intros; contradiction].
Qed.

End ScanExtras.

(** X5.  A failure of the scratch file at the word of a record is handed
    back by the visitor with the scratch file untouched, and ends the walk:
    the compute stage returns that error after the records before, and
    reports no corruption. *)
Theorem rtsum_compute_io_error `{env : xfs_env} (sc : xfs_scrub)
    (l1 l2 : list xfs_rtalloc_rec) (rec : xfs_rtalloc_rec) :
  XFS_FSB_TO_B mp (xfs_rtbitmap_blockcount mp) = i_disk_size (rtg_bitmap rtg) ->
  rtg_free rtg = l1 ++ rec :: l2 ->
  Forall (fun rec => rec_in_range rtg rec = true) l1 ->
  Forall rec_io_ok l1 ->
  rec_in_range rtg rec = true ->
  xfile_access_error (sum_pos (rtsum_offs rec)) sizeof_suminfo_raw <> 0 ->
  quiet (S (length l1)) (sc_signals sc) ->
  exists sc',
    xchk_rtsum_compute sc
    = (xfile_access_error (sum_pos (rtsum_offs rec)) sizeof_suminfo_raw, sc')
    /\ sc_xfile sc' = fold_left rtsum_bump l1 (sc_xfile sc)
    /\ sm_flags sc' = sm_flags sc /\ sc_trace sc' = sc_trace sc.
Proof.
  intros Hsize Hfree Hr Hio Hrec Herr Hq.
  exists (after_checkpoint (scan_state sc l1)). split; [|repeat split; reflexivity].
  unfold xchk_rtsum_compute. rewrite Hsize, Z.eqb_refl. cbn [negb].
  unfold xfs_rtalloc_query_all, bind. rewrite Hfree.
  replace (S (length l1)) with (length l1 + 1)%nat in Hq by lia.
  apply quiet_app in Hq. destruct Hq as [Hq1 Hq2].
  rewrite query_records_ok by assumption.
  rewrite (query_records_stop _ _ _ _ _ _ _
             (record_free_io_error rtg rec (scan_state sc l1) Hq2 Hrec Herr))
    by exact Herr.
  destruct (Z.eqb_spec (xfile_access_error (sum_pos (rtsum_offs rec))
                          sizeof_suminfo_raw) 0); [contradiction | reflexivity].
Qed.

Lemma compute_frame `{env : xfs_env} (sc : xfs_scrub) :
  scan_frame rtg sc (snd (xchk_rtsum_compute sc))
  /\ (fst (xchk_rtsum_compute sc) = 0 ->
      sm_flags (snd (xchk_rtsum_compute sc)) = sm_flags sc
      /\ sc_trace (snd (xchk_rtsum_compute sc)) = sc_trace sc).
Proof.
  unfold xchk_rtsum_compute.
  destruct (XFS_FSB_TO_B mp (xfs_rtbitmap_blockcount mp) =? i_disk_size (rtg_bitmap rtg));
    cbn [negb].
  - unfold xfs_rtalloc_query_all, bind.
    destruct (query_records_frame rtg (rtg_free rtg) sc) as [Hfr H0].
    destruct (rtalloc_query_records xchk_rtsum_record_free rtg (rtg_free rtg) sc)
      as [error sc1]. cbn [fst snd] in *.
    destruct (Z.eqb_spec error 0) as [->|Hne]; cbn [negb]; unfold ret; cbn [fst snd].
    + split; [exact Hfr | intros _; now apply H0].
    + split; [exact Hfr | intros; contradiction].
  - unfold ret. cbn [fst snd]. split; [|discriminate].
    unfold scan_frame. auto 10.
Qed.

(** X6.  Whatever the bitmap holds and whatever fails, the compute stage
    leaves the inode under check, the private buffer and the corrupt flag of
    the scrub context as they were; it adds at most one report, the
    cross-reference report of the bitmap inode, and none when it returns
    0. *)
Theorem rtsum_compute_frame `{env : xfs_env} (sc : xfs_scrub) :
  scan_frame rtg sc (snd (xchk_rtsum_compute sc))
  /\ (fst (xchk_rtsum_compute sc) = 0 ->
      sm_flags (snd (xchk_rtsum_compute sc)) = sm_flags sc
      /\ sc_trace (snd (xchk_rtsum_compute sc)) = sc_trace sc).
Proof. exact (compute_frame sc). Qed.

(** *** The order of the records *)

Lemma rtsum_count_perm `{env : xfs_env} (l1 l2 : list xfs_rtalloc_rec) (w : Z) :
  Permutation l1 l2 -> rtsum_count l1 w = rtsum_count l2 w.
Proof.
  induction 1 as [|r l l' _ IH|r r' l|l l' l'' _ IH1 _ IH2]; cbn [rtsum_count];
    [reflexivity | now rewrite IH | lia | congruence].
Qed.

(** X7.  The counts do not depend on the order in which the bitmap hands
    over its free extents: two walks over the same records in different
    orders both succeed and leave the same counter in every summary word. *)
Theorem rtsum_scan_order `{env : xfs_env} (l1 l2 : list xfs_rtalloc_rec)
    (sc : xfs_scrub) :
  Permutation l1 l2 ->
  Forall (fun rec => rec_in_range rtg rec = true) l1 ->
  Forall rec_io_ok l1 ->
  quiet (length l1) (sc_signals sc) ->
  fst (rtalloc_query_records xchk_rtsum_record_free rtg l1 sc) = 0
  /\ fst (rtalloc_query_records xchk_rtsum_record_free rtg l2 sc) = 0
  /\ forall w,
       sum_value (sc_xfile (snd (rtalloc_query_records xchk_rtsum_record_free rtg l1 sc))) w
       = sum_value (sc_xfile (snd (rtalloc_query_records xchk_rtsum_record_free rtg l2 sc))) w.
Proof.
  intros Hp Hr Hio Hq.
  assert (Hr2 : Forall (fun rec => rec_in_range rtg rec = true) l2)
    by (eapply Permutation_Forall; eassumption).
  assert (Hio2 : Forall rec_io_ok l2) by (eapply Permutation_Forall; eassumption).
  assert (Hq2 : quiet (length l2) (sc_signals sc))
    by (now rewrite <- (Permutation_length Hp)).
  rewrite <- (app_nil_r l1), <- (app_nil_r l2).
  rewrite !query_records_ok by assumption.
  cbn [rtalloc_query_records ret fst snd scan_state sc_xfile set_xfile].
  split; [reflexivity|]. split; [reflexivity|].
  intros w. rewrite !sum_value_fold. now rewrite (rtsum_count_perm l1 l2 w Hp).
Qed.

Lemma rtsum_scan_order_witness :
  fst (rtalloc_query_records (xchk_rtsum_record_free (env := demo_env_two))
         (rtg (xfs_env := demo_env_two)) [demo_rec_a; demo_rec_b] (demo_sc [])) = 0
  /\ fst (rtalloc_query_records (xchk_rtsum_record_free (env := demo_env_two))
            (rtg (xfs_env := demo_env_two)) [demo_rec_b; demo_rec_a] (demo_sc [])) = 0
  /\ forall w,
       sum_value (env := demo_env_two)
         (sc_xfile (snd (rtalloc_query_records (xchk_rtsum_record_free (env := demo_env_two))
                           (rtg (xfs_env := demo_env_two)) [demo_rec_a; demo_rec_b]
                           (demo_sc [])))) w
       = sum_value (env := demo_env_two)
           (sc_xfile (snd (rtalloc_query_records
                             (xchk_rtsum_record_free (env := demo_env_two))
                             (rtg (xfs_env := demo_env_two)) [demo_rec_b; demo_rec_a]
                             (demo_sc [])))) w.
Proof.
  apply (rtsum_scan_order (env := demo_env_two) [demo_rec_a; demo_rec_b]
           [demo_rec_b; demo_rec_a] (demo_sc [])).
  - apply perm_swap.
  - repeat constructor.
  - repeat constructor.
  - apply quiet_nil.
Defined.

(** *** The fork scrubber and the comparison *)

(** X8.  When the fork scrubber fails or leaves the corrupt flag set,
    [xchk_rtsummary] returns what the fork scrubber returned (0 when it only
    set the flag) and neither recomputes nor compares.  Otherwise, when the
    recomputation succeeds, the comparison starts from the state the
    recomputation left, in which the corrupt flag is still clear. *)
Theorem rtsummary_forks_gate `{env : xfs_env} (fuel : nat) (sc sc1 : xfs_scrub)
    (error : Z) :
  geometry_ok sc ->
  xchk_metadata_inode_forks sc = (error, sc1) ->
  (error <> 0 \/ Z.land (sm_flags sc1) XFS_SCRUB_OFLAG_CORRUPT <> 0 ->
   xchk_rtsummary fuel sc = (Some error, sc1))
  /\ (error = 0 -> Z.land (sm_flags sc1) XFS_SCRUB_OFLAG_CORRUPT = 0 ->
      fst (xchk_rtsum_compute sc1) = 0 ->
      xchk_rtsummary fuel sc = xchk_rtsum_compare fuel (snd (xchk_rtsum_compute sc1))
      /\ Z.land (sm_flags (snd (xchk_rtsum_compute sc1))) XFS_SCRUB_OFLAG_CORRUPT = 0).
Proof.
  intros Hgeo Hforks. rewrite xchk_rtsummary_geometry_ok by assumption. split.
  - intros H. unfold xchk_rtsummary_recompute. scrub_unfold. rewrite Hforks.
    destruct (Z.eqb_spec error 0) as [->|Hne]; cbn [negb orb]; [|reflexivity].
    destruct (Z.eqb_spec (Z.land (sm_flags sc1) XFS_SCRUB_OFLAG_CORRUPT) 0) as [E|E];
      cbn [negb]; [|reflexivity].
    destruct H; contradiction.
  - intros -> Hf Hc. split.
    + apply (xchk_rtsummary_recompute_compare fuel sc sc1); try assumption.
      destruct (xchk_rtsum_compute sc1) as [e s]. cbn [fst snd] in *. now subst e.
    + destruct (compute_frame sc1) as [(_ & _ & Hland & _) _]. now rewrite Hland.
Qed.

Lemma rtsummary_forks_gate_witness :
  xchk_rtsummary (env := demo_env1) 4 (demo_sc [])
  = xchk_rtsum_compare (env := demo_env1) 4
      (snd (xchk_rtsum_compute (env := demo_env1) (demo_sc [])))
  /\ Z.land (sm_flags (snd (xchk_rtsum_compute (env := demo_env1) (demo_sc []))))
       XFS_SCRUB_OFLAG_CORRUPT = 0.
Proof.
  apply (proj2 (rtsummary_forks_gate (env := demo_env1) 4 (demo_sc []) (demo_sc []) 0
                  ltac:(repeat split; try reflexivity; try (vm_compute; discriminate))
                  eq_refl));
    reflexivity.
Defined.

Section CompareExtras.
Context {env : xfs_env}.

Lemma blocks_copyout_error (n : nat) (off : Z) (sc : xfs_scrub) :
  fst (rtsummary_block off) = 0 ->
  xfile_access_error (sum_pos (u32 (off * m_blockwsize mp)))
    (words_len (m_blockwsize mp)) <> 0 ->
  xchk_rtsum_compare_blocks (S n) off (u32 (off * m_blockwsize mp)) sc
  = (xfile_access_error (sum_pos (u32 (off * m_blockwsize mp)))
       (words_len (m_blockwsize mp)),
     set_buf (set_words (words (sc_buf sc)) (sc_buf sc))
       (log_event (Ev_rtsummary_read_buf off) sc)).
Proof.
  intros Hrd Hxf. cbn [xchk_rtsum_compare_blocks].
  unfold xfs_rtsummary_read_buf. scrub_unfold.
  destruct (rtsummary_block off) as [error ondisk] eqn:E.
  cbn [fst] in Hrd. subst error. rewrite process_error_none. cbn [negb].
  unfold xfsum_copyout, xfile_load.
  destruct (Z.eqb_spec (xfile_access_error (sum_pos (u32 (off * m_blockwsize mp)))
                          (words_len (m_blockwsize mp))) 0) as [H0|H0];
    [contradiction|].
  cbn [sc_buf log_event negb].
  destruct (Z.eqb_spec (xfile_access_error (sum_pos (u32 (off * m_blockwsize mp)))
                          (words_len (m_blockwsize mp))) 0) as [H1|H1];
    [contradiction | reflexivity].
Qed.

End CompareExtras.

(** A summary file that passes the mapping check and whose blocks all
    compare equal. *)
Lemma xchk_rtsum_compare_same `{env : xfs_env} (fuel n : nat) (sc : xfs_scrub)
    (off : Z) :
  xfs_iext_lookup_extent (sc_ip sc) (rtsum_endoff sc) = false ->
  Z.land (sm_flags sc) XFS_SCRUB_OFLAG_CORRUPT = 0 ->
  written_chain (sc_ip sc) (rtsum_endoff sc) 0 n off ->
  rtsum_endoff sc <= off ->
  quiet n (sc_signals sc) ->
  (n <= fuel)%nat ->
  (forall j, 0 <= j < rtsum_endoff sc ->
     block_readable j /\ block_same (sc_xfile sc) j) ->
  xchk_rtsum_compare fuel sc
  = (Some 0, compared_state (set_signals (drop n (sc_signals sc)) sc) 0
               (Z.to_nat (rtsum_endoff sc))).
Proof.
  intros Hlook Hf Hch Hend Hq Hfuel Hsame.
  set (sc1 := set_signals (drop n (sc_signals sc)) sc).
  assert (Hblocks :
    xchk_rtsum_compare_blocks (Z.to_nat (rtsum_endoff sc)) 0 0 sc1
    = (0, compared_state sc1 0 (Z.to_nat (rtsum_endoff sc)))).
  { replace (Z.to_nat (rtsum_endoff sc)) with (Z.to_nat (rtsum_endoff sc) + 0)%nat at 1
      by lia.
    change (xchk_rtsum_compare_blocks (Z.to_nat (rtsum_endoff sc) + 0) 0 0 sc1)
      with (xchk_rtsum_compare_blocks (Z.to_nat (rtsum_endoff sc) + 0) 0
              (u32 (0 * m_blockwsize mp)) sc1).
    rewrite blocks_prefix; [reflexivity|].
    intros j Hj. apply Hsame. lia. }
  rewrite (xchk_rtsum_compare_through fuel sc sc1 Hlook)
    by (now apply (maps_pass fuel n sc off)).
  now rewrite Hblocks.
Qed.

(** X9.  When the mappings of the summary file pass the check and every
    block on disk has the bytes that were computed for it, the comparator
    reads every block once, in ascending order, reports nothing and
    returns 0; the flags and the scratch file are as before. *)
Theorem rtsum_compare_all_same `{env : xfs_env} (fuel n : nat) (sc : xfs_scrub)
    (off : Z) :
  xfs_iext_lookup_extent (sc_ip sc) (rtsum_endoff sc) = false ->
  Z.land (sm_flags sc) XFS_SCRUB_OFLAG_CORRUPT = 0 ->
  written_chain (sc_ip sc) (rtsum_endoff sc) 0 n off ->
  rtsum_endoff sc <= off ->
  quiet n (sc_signals sc) ->
  (n <= fuel)%nat ->
  (forall j, 0 <= j < rtsum_endoff sc ->
     block_readable j
     /\ forall i, (i < Z.to_nat (words_len (m_blockwsize mp)))%nat ->
          nth i (snd (rtsummary_block j)) x00
          = nth i (computed_block (sc_xfile sc) j) x00) ->
  exists sc',
    xchk_rtsum_compare fuel sc = (Some 0, sc')
    /\ sc_trace sc'
       = sc_trace sc
         ++ map (fun i => Ev_rtsummary_read_buf (Z.of_nat i))
              (seq 0 (Z.to_nat (rtsum_endoff sc)))
    /\ sm_flags sc' = sm_flags sc
    /\ sc_xfile sc' = sc_xfile sc.
Proof.
  intros Hlook Hf Hch Hend Hq Hfuel Hsame.
  eexists. split.
  - apply (xchk_rtsum_compare_same fuel n sc off); try assumption.
    intros j Hj. destruct (Hsame j Hj) as [Hrd Hbytes].
    split; [exact Hrd|]. unfold block_same. now apply memcmp_zero_iff.
  - rewrite compared_state_trace, compared_state_flags, compared_state_xfile.
    repeat split; reflexivity.
Qed.

(** The summary on disk of a volume without free extents is all zero, as is
    the fresh scratch file. *)
Lemma rtsum_compare_all_same_witness :
  exists sc',
    xchk_rtsum_compare (env := demo_env_zero) 4 (demo_sc []) = (Some 0, sc')
    /\ sc_trace sc'
       = [] ++ map (fun i => Ev_rtsummary_read_buf (Z.of_nat i)) (seq 0 4)
    /\ sm_flags sc' = 0
    /\ sc_xfile sc' = ∅.
Proof.
  apply (rtsum_compare_all_same (env := demo_env_zero) 4 4 (demo_sc []) 4).
  - reflexivity.
  - reflexivity.
  - apply demo_chain. reflexivity.
  - vm_compute. discriminate.
  - apply quiet_nil.
  - lia.
  - intros j Hj. split; [split; reflexivity|].
    intros i Hi. change (Z.to_nat (words_len (m_blockwsize mp))) with 4%nat in Hi.
    assert (Hi' : i = 0%nat \/ i = 1%nat \/ i = 2%nat \/ i = 3%nat) by lia.
    destruct Hi' as [-> | [-> | [-> | ->]]]; reflexivity.
Defined.

(** X10.  The whole check on a consistent volume: when the geometry agrees,
    the fork scrubber is content, every free extent is in range, nothing
    fails, nobody cancels, the summary file is fully written and every block
    on disk is what the walk of the bitmap computed, [xchk_rtsummary]
    returns 0 having set no flag and made no report; after the fork
    scrubber it only reads the blocks of the summary, each once, in
    order. *)
Theorem rtsummary_consistent_volume `{env : xfs_env} (fuel n : nat)
    (sc sc1 : xfs_scrub) (off : Z) :
  geometry_ok sc ->
  xchk_metadata_inode_forks sc = (0, sc1) ->
  Z.land (sm_flags sc1) XFS_SCRUB_OFLAG_CORRUPT = 0 ->
  XFS_FSB_TO_B mp (xfs_rtbitmap_blockcount mp) = i_disk_size (rtg_bitmap rtg) ->
  Forall (fun rec => rec_in_range rtg rec = true) (rtg_free rtg) ->
  Forall rec_io_ok (rtg_free rtg) ->
  rtg_query_error rtg = 0 ->
  quiet (length (rtg_free rtg) + n) (sc_signals sc1) ->
  xfs_iext_lookup_extent (sc_ip sc1) (rtsum_endoff sc1) = false ->
  written_chain (sc_ip sc1) (rtsum_endoff sc1) 0 n off ->
  rtsum_endoff sc1 <= off ->
  (n <= fuel)%nat ->
  (forall j, 0 <= j < rtsum_endoff sc1 ->
     block_readable j
     /\ block_same (fold_left rtsum_bump (rtg_free rtg) (sc_xfile sc1)) j) ->
  exists sc',
    xchk_rtsummary fuel sc = (Some 0, sc')
    /\ sm_flags sc' = sm_flags sc1
    /\ sc_trace sc'
       = sc_trace sc1
         ++ map (fun i => Ev_rtsummary_read_buf (Z.of_nat i))
              (seq 0 (Z.to_nat (rtsum_endoff sc1)))
    /\ sc_xfile sc' = fold_left rtsum_bump (rtg_free rtg) (sc_xfile sc1).
Proof.
  intros Hgeo Hforks Hf Hsize Hr Hio Hqe Hq Hlook Hch Hend Hfuel Hsame.
  apply quiet_app in Hq. destruct Hq as [Hq1 Hq2].
  pose proof (xchk_rtsum_compute_ok sc1 Hsize Hr Hio Hqe Hq1) as Hcomp.
  eexists. split.
  - rewrite xchk_rtsummary_geometry_ok by assumption.
    rewrite (xchk_rtsummary_recompute_compare fuel sc sc1 _ Hforks Hf Hcomp).
    apply (xchk_rtsum_compare_same fuel n (scan_state sc1 (rtg_free rtg)) off);
      assumption.
  - rewrite compared_state_trace, compared_state_flags, compared_state_xfile.
    repeat split; reflexivity.
Qed.

Lemma rtsummary_consistent_volume_witness :
  exists sc',
    xchk_rtsummary (env := demo_env1) 4 (demo_sc []) = (Some 0, sc')
    /\ sm_flags sc' = 0
    /\ sc_trace sc' = [] ++ map (fun i => Ev_rtsummary_read_buf (Z.of_nat i)) (seq 0 4)
    /\ sc_xfile sc' = fold_left (rtsum_bump (env := demo_env1)) demo_free ∅.
Proof.
  apply (rtsummary_consistent_volume (env := demo_env1) 4 4 (demo_sc []) (demo_sc []) 4).
  - repeat split; try reflexivity; try (vm_compute; discriminate).
  - reflexivity.
  - reflexivity.
  - reflexivity.
  - repeat constructor.
  - repeat constructor.
  - reflexivity.
  - apply quiet_nil.
  - reflexivity.
  - apply demo_chain. reflexivity.
  - vm_compute. discriminate.
  - lia.
  - intros j Hj. change (rtsum_endoff (env := demo_env1) (demo_sc [])) with 4 in Hj.
    assert (Hj' : j = 0 \/ j = 1 \/ j = 2 \/ j = 3) by lia.
    destruct Hj' as [-> | [-> | [-> | ->]]]; repeat split; reflexivity.
Defined.

(** X11.  When the scratch file fails while the computed words of block [k]
    are copied out, the blocks before having compared equal, the comparator
    returns that error; it has read the blocks 0 to [k] and no other, and
    reports no corruption. *)
Theorem rtsum_compare_copyout_error `{env : xfs_env} (fuel n : nat) (sc : xfs_scrub)
    (off k : Z) :
  xfs_iext_lookup_extent (sc_ip sc) (rtsum_endoff sc) = false ->
  Z.land (sm_flags sc) XFS_SCRUB_OFLAG_CORRUPT = 0 ->
  written_chain (sc_ip sc) (rtsum_endoff sc) 0 n off ->
  rtsum_endoff sc <= off ->
  quiet n (sc_signals sc) ->
  (n <= fuel)%nat ->
  0 <= k < rtsum_endoff sc ->
  (forall j, 0 <= j < k -> block_readable j /\ block_same (sc_xfile sc) j) ->
  fst (rtsummary_block k) = 0 ->
  xfile_access_error (sum_pos (u32 (k * m_blockwsize mp)))
    (words_len (m_blockwsize mp)) <> 0 ->
  exists sc',
    xchk_rtsum_compare fuel sc
    = (Some (xfile_access_error (sum_pos (u32 (k * m_blockwsize mp)))
               (words_len (m_blockwsize mp))), sc')
    /\ sc_trace sc' = sc_trace sc ++ reads_upto k
    /\ sm_flags sc' = sm_flags sc
    /\ sc_xfile sc' = sc_xfile sc.
Proof.
  intros Hlook Hf Hch Hend Hq Hfuel Hk Hsame Hrd Herr.
  set (sc1 := set_signals (drop n (sc_signals sc)) sc).
  set (k' := Z.to_nat k).
  eexists. split.
  - rewrite (xchk_rtsum_compare_through fuel sc sc1 Hlook)
      by (now apply (maps_pass fuel n sc off)).
    replace (Z.to_nat (rtsum_endoff sc))
      with (k' + S (Z.to_nat (rtsum_endoff sc) - S k'))%nat by lia.
    change (xchk_rtsum_compare_blocks (k' + S (Z.to_nat (rtsum_endoff sc) - S k')) 0 0 sc1)
      with (xchk_rtsum_compare_blocks (k' + S (Z.to_nat (rtsum_endoff sc) - S k')) 0
              (u32 (0 * m_blockwsize mp)) sc1).
    rewrite blocks_prefix by (intros j Hj; apply Hsame; lia).
    replace (0 + Z.of_nat k') with k by lia.
    rewrite blocks_copyout_error by assumption. reflexivity.
  - cbn [snd sc_trace sm_flags sc_xfile set_buf log_event].
    rewrite compared_state_trace, compared_state_flags, compared_state_xfile.
    split; [|split; reflexivity].
    unfold reads_upto. fold k'. replace (S k') with (k' + 1)%nat by lia.
    rewrite seq_app, map_app, <- app_assoc. cbn [seq map Nat.add].
    replace (Z.of_nat k') with k by lia. reflexivity.
Qed.

Lemma rtsum_compare_copyout_error_witness :
  exists sc',
    xchk_rtsum_compare (env := demo_env_xfile_fails) 4 (demo_sc []) = (Some (- ENOMEM), sc')
    /\ sc_trace sc' = [] ++ reads_upto 1
    /\ sm_flags sc' = 0
    /\ sc_xfile sc' = ∅.
Proof.
  apply (rtsum_compare_copyout_error (env := demo_env_xfile_fails) 4 4 (demo_sc []) 4 1).
  - reflexivity.
  - reflexivity.
  - apply demo_chain. reflexivity.
  - vm_compute. discriminate.
  - apply quiet_nil.
  - lia.
  - vm_compute. split; [discriminate | reflexivity].
  - intros j Hj. assert (j = 0) by lia. subst j. repeat split; reflexivity.
  - reflexivity.
  - vm_compute. discriminate.
Defined.

(** X12.  A summary file of no blocks with no mapping beyond its end is
    found in order at once: the comparator returns 0 without polling for
    cancellation, reading a block or changing anything, whatever the fuel.
    With blocks to check but the corrupt flag already set, it returns 0 at
    the first turn of the mapping loop after one checkpoint, with no report
    and no block read. *)
Theorem rtsum_compare_nothing_to_do `{env : xfs_env} (fuel : nat) (sc : xfs_scrub) :
  xfs_iext_lookup_extent (sc_ip sc) (rtsum_endoff sc) = false ->
  (rtsum_endoff sc <= 0 -> xchk_rtsum_compare fuel sc = (Some 0, sc))
  /\ (0 < rtsum_endoff sc ->
      quiet 1 (sc_signals sc) ->
      Z.land (sm_flags sc) XFS_SCRUB_OFLAG_CORRUPT <> 0 ->
      xchk_rtsum_compare (S fuel) sc = (Some 0, after_checkpoint sc)).
Proof.
  intros Hlook. split.
  - intros Hend.
    rewrite (xchk_rtsum_compare_through fuel sc sc Hlook) by (now apply maps_done).
    replace (Z.to_nat (rtsum_endoff sc)) with O by lia. reflexivity.
  - intros Hend Hq Hf.
    apply (xchk_rtsum_compare_return (S fuel) sc _ 0 Hlook).
    cbn [xchk_rtsum_compare_maps].
    destruct (Z.ltb_spec 0 (rtsum_endoff sc)); [|lia].
    scrub_unfold. rewrite xchk_should_terminate_quiet by assumption.
    change (sm_flags (set_signals (drop 1 (sc_signals sc)) sc)) with (sm_flags sc).
    destruct (Z.eqb_spec (Z.land (sm_flags sc) XFS_SCRUB_OFLAG_CORRUPT) 0);
      [contradiction | reflexivity].
Qed.

Lemma rtsum_compare_nothing_to_do_witness :
  xchk_rtsum_compare (env := demo_env1) 1
    (set_flags XFS_SCRUB_OFLAG_CORRUPT (demo_sc []))
  = (Some 0, after_checkpoint (set_flags XFS_SCRUB_OFLAG_CORRUPT (demo_sc [])))
  /\ xchk_rtsum_compare (env := demo_env1) 0 (set_ip {| i_ino := 130; i_disk_size := 0 |}
                                                (demo_sc [true]))
     = (Some 0, set_ip {| i_ino := 130; i_disk_size := 0 |} (demo_sc [true])).
Proof.
  split.
  - apply (proj2 (rtsum_compare_nothing_to_do (env := demo_env1) 0
                    (set_flags XFS_SCRUB_OFLAG_CORRUPT (demo_sc [])) eq_refl)).
    + reflexivity.
    + apply quiet_nil.
    + discriminate.
  - apply (proj1 (rtsum_compare_nothing_to_do (env := demo_env1) 0
                    (set_ip {| i_ino := 130; i_disk_size := 0 |} (demo_sc [true]))
                    eq_refl)).
    vm_compute. discriminate.
Defined.

(** *** What the comparator leaves alone *)

Lemma compare_frame_refl (sc : xfs_scrub) : compare_frame sc sc.
Proof. unfold compare_frame. auto 10. Qed.

Lemma compare_frame_trans (a b c : xfs_scrub) :
  compare_frame a b -> compare_frame b c -> compare_frame a c.
Proof.
  unfold compare_frame.
  intros (H1 & H2 & H3 & H4 & H5 & H6 & H7) (K1 & K2 & K3 & K4 & K5 & K6 & K7).
  repeat split; try congruence.
  destruct H3 as [H3|H3], K3 as [K3|K3]; rewrite K3, H3; auto.
  right. now rewrite <- Z.lor_assoc, Z.lor_diag.
Qed.

Lemma compare_frame_signals (s : list bool) (sc : xfs_scrub) :
  compare_frame sc (set_signals s sc).
Proof. unfold compare_frame. cbn. auto 10. Qed.

Lemma compare_frame_terminate (error : Z) (sc : xfs_scrub) :
  compare_frame sc (snd (xchk_should_terminate error sc)).
Proof. rewrite should_terminate_frame. apply compare_frame_signals. Qed.

Lemma compare_frame_process_error (whichfork off error : Z) (sc : xfs_scrub) :
  compare_frame sc (snd (xchk_fblock_process_error whichfork off error sc)).
Proof.
  unfold xchk_fblock_process_error, ret.
  destruct (error =? 0); [apply compare_frame_refl|].
  destruct (_ || _); [|apply compare_frame_refl].
  unfold compare_frame. cbn. auto 10.
Qed.

Lemma compare_frame_set_corrupt (whichfork off : Z) (sc : xfs_scrub) :
  compare_frame sc (snd (xchk_fblock_set_corrupt whichfork off sc)).
Proof. unfold compare_frame. cbn. auto 10. Qed.

Section FrameLemmas.
Context {env : xfs_env}.

Lemma maps_frame (fuel : nat) (endoff : Z) :
  forall (off error : Z) (sc : xfs_scrub),
    compare_frame sc (snd (xchk_rtsum_compare_maps fuel endoff off error sc)).
Proof.
  induction fuel as [|fuel IH]; intros off error sc; cbn [xchk_rtsum_compare_maps];
    destruct (off <? endoff); try apply compare_frame_refl.
  scrub_unfold.
  pose proof (compare_frame_terminate error sc) as H1.
  destruct (xchk_should_terminate error sc) as [[stop e1] sc1]. cbn [snd] in H1.
  destruct stop; [exact H1|].
  destruct (negb (Z.land (sm_flags sc1) XFS_SCRUB_OFLAG_CORRUPT =? 0)); [exact H1|].
  destruct (xfs_bmapi_read (sc_ip sc1) off (endoff - off)) as [[e2 nmap] map].
  pose proof (compare_frame_process_error XFS_DATA_FORK off e2 sc1) as H2.
  destruct (xchk_fblock_process_error XFS_DATA_FORK off e2 sc1) as [[ok e3] sc2].
  cbn [snd] in H2.
  assert (H12 : compare_frame sc sc2) by exact (compare_frame_trans _ _ _ H1 H2).
  destruct ok; cbn [negb]; [|exact H12].
  destruct (negb (nmap =? 1) || negb (xfs_bmap_is_written_extent map)).
  - eapply compare_frame_trans; [exact H12|].
    apply (compare_frame_set_corrupt XFS_DATA_FORK off sc2).
  - eapply compare_frame_trans; [exact H12 | apply IH].
Qed.

Lemma blocks_frame (n : nat) :
  forall (off sumoff : Z) (sc : xfs_scrub),
    compare_frame sc (snd (xchk_rtsum_compare_blocks n off sumoff sc)).
Proof.
  induction n as [|n IH]; intros off sumoff sc; cbn [xchk_rtsum_compare_blocks];
    [apply compare_frame_refl|].
  unfold xfs_rtsummary_read_buf. scrub_unfold.
  destruct (rtsummary_block off) as [e1 ondisk].
  assert (H0 : compare_frame sc (log_event (Ev_rtsummary_read_buf off) sc))
    by (unfold compare_frame; cbn; auto 10).
  pose proof (compare_frame_process_error XFS_DATA_FORK off e1
                (log_event (Ev_rtsummary_read_buf off) sc)) as H1.
  destruct (xchk_fblock_process_error XFS_DATA_FORK off e1
              (log_event (Ev_rtsummary_read_buf off) sc)) as [[ok e2] sc1].
  cbn [snd] in H1.
  assert (H01 : compare_frame sc sc1) by exact (compare_frame_trans _ _ _ H0 H1).
  destruct ok; cbn [negb]; [|exact H01].
  unfold xfsum_copyout, xfile_load.
  assert (Hbuf : forall w, compare_frame sc (set_buf (set_words w (sc_buf sc1)) sc1)).
  { intros w. eapply compare_frame_trans; [exact H01|].
    unfold compare_frame. cbn. auto 10. }
  destruct (xfile_access_error _ _ =? 0); cbn [negb Z.eqb].
  - destruct (negb (memcmp _ _ _ =? 0)).
    + eapply compare_frame_trans; [apply Hbuf|].
      apply (compare_frame_set_corrupt XFS_DATA_FORK off).
    + eapply compare_frame_trans; [apply Hbuf | apply IH].
  - destruct (negb (_ =? 0)).
    + apply Hbuf.
    + destruct (negb (memcmp _ _ _ =? 0)).
      * eapply compare_frame_trans; [apply Hbuf|].
        apply (compare_frame_set_corrupt XFS_DATA_FORK off).
      * eapply compare_frame_trans; [apply Hbuf | apply IH].
Qed.

(** The loop over the mappings ends within as many turns as the file has
    blocks when every written mapping it is given is at least a block
    long. *)
Lemma maps_terminates (fuel : nat) (endoff : Z) :
  (forall ip o len,
     xfs_bmap_is_written_extent (snd (xfs_bmapi_read ip o len)) = true ->
     1 <= br_blockcount (snd (xfs_bmapi_read ip o len))) ->
  forall (off error : Z) (sc : xfs_scrub),
    (Z.to_nat (endoff - off) <= fuel)%nat ->
    fst (xchk_rtsum_compare_maps fuel endoff off error sc) <> None.
Proof.
  intros Hprog. induction fuel as [|fuel IH]; intros off error sc Hfuel;
    cbn [xchk_rtsum_compare_maps];
    destruct (Z.ltb_spec off endoff) as [Hlt|Hge]; try discriminate; [lia|].
  scrub_unfold.
  destruct (xchk_should_terminate error sc) as [[stop e1] sc1].
  destruct stop; [discriminate|].
  destruct (negb (Z.land (sm_flags sc1) XFS_SCRUB_OFLAG_CORRUPT =? 0)); [discriminate|].
  pose proof (Hprog (sc_ip sc1) off (endoff - off)) as Hp.
  destruct (xfs_bmapi_read (sc_ip sc1) off (endoff - off)) as [[e2 nmap] map].
  cbn [snd] in Hp.
  destruct (xchk_fblock_process_error XFS_DATA_FORK off e2 sc1) as [[ok e3] sc2].
  destruct ok; cbn [negb]; [|discriminate].
  destruct (nmap =? 1); cbn [negb orb]; [|discriminate].
  destruct (xfs_bmap_is_written_extent map) eqn:Hw; cbn [negb]; [|discriminate].
  apply IH. specialize (Hp eq_refl). lia.
Qed.

End FrameLemmas.

(** X13.  Whatever the summary file looks like and whatever fails, the
    comparator never writes to the scratch file, never changes the inode
    under check or the recomputed geometry, and the only flag it can set is
    the corrupt flag. *)
Theorem rtsum_compare_frame `{env : xfs_env} (fuel : nat) (sc : xfs_scrub) :
  compare_frame sc (snd (xchk_rtsum_compare fuel sc)).
Proof.
  unfold xchk_rtsum_compare. scrub_unfold.
  destruct (xfs_iext_lookup_extent _ _).
  - apply (compare_frame_set_corrupt XFS_DATA_FORK).
  - pose proof (maps_frame fuel (XFS_B_TO_FSB mp (i_disk_size (sc_ip sc))) 0 0 sc) as H.
    destruct (xchk_rtsum_compare_maps fuel _ 0 0 sc) as [[[|r]|] sc1]; cbn [snd] in *;
      try exact H.
    pose proof (blocks_frame (Z.to_nat (XFS_B_TO_FSB mp (i_disk_size (sc_ip sc)))) 0 0 sc1)
      as H'.
    destruct (xchk_rtsum_compare_blocks _ 0 0 sc1) as [r sc2]. cbn [snd] in *.
    eapply compare_frame_trans; eassumption.
Qed.

(** X14.  The comparator comes to an end: when every written mapping the
    extent map hands over is at least one block long, as many turns of the
    mapping loop as the summary file has blocks are enough for
    [xchk_rtsum_compare] to return. *)
Theorem rtsum_compare_terminates `{env : xfs_env} (fuel : nat) (sc : xfs_scrub) :
  (forall ip o len,
     xfs_bmap_is_written_extent (snd (xfs_bmapi_read ip o len)) = true ->
     1 <= br_blockcount (snd (xfs_bmapi_read ip o len))) ->
  (Z.to_nat (rtsum_endoff sc) <= fuel)%nat ->
  fst (xchk_rtsum_compare fuel sc) <> None.
Proof.
  intros Hprog Hfuel. unfold xchk_rtsum_compare, rtsum_endoff in *. scrub_unfold.
  destruct (xfs_iext_lookup_extent _ _); [discriminate|].
  pose proof (maps_terminates fuel (XFS_B_TO_FSB mp (i_disk_size (sc_ip sc))) Hprog
                0 0 sc) as H.
  rewrite Z.sub_0_r in H. specialize (H Hfuel).
  destruct (xchk_rtsum_compare_maps fuel _ 0 0 sc) as [[[|r]|] sc1]; cbn [fst] in *;
    try discriminate; [|contradiction].
  destruct (xchk_rtsum_compare_blocks _ 0 0 sc1). discriminate.
Qed.

Lemma rtsum_compare_terminates_witness :
  fst (xchk_rtsum_compare (env := demo_env_hole) 4 (demo_sc [])) <> None.
Proof.
  apply (rtsum_compare_terminates (env := demo_env_hole) 4 (demo_sc [])).
  - intros ip o len _. discriminate.
  - vm_compute. apply le_n.
Defined.

(** *** The setup *)

(** X1.  [xchk_setup_rtsummary] returns -ENOMEM when the allocation fails,
    leaving the scrub context as it was, and otherwise the first error among
    its calls, in their order, or 0.  After a setup that returned 0 the
    inode under check is the summary inode, the scratch file is empty, the
    buffer holds a block's worth of zeroed words, and flags, trace and
    pending signals are as before. *)
Theorem xchk_setup_rtsummary_result `{env : xfs_env} (o : xchk_setup_outcomes)
    (sc : xfs_scrub) :
  fst (xchk_setup_rtsummary o sc)
  = (if kvzalloc_fails o then - ENOMEM else first_error (setup_errors o))
  /\ (kvzalloc_fails o = true -> snd (xchk_setup_rtsummary o sc) = sc)
  /\ (fst (xchk_setup_rtsummary o sc) = 0 ->
      sc_ip (snd (xchk_setup_rtsummary o sc)) = rtg_summary rtg
      /\ sc_xfile (snd (xchk_setup_rtsummary o sc)) = ∅
      /\ words (sc_buf (snd (xchk_setup_rtsummary o sc)))
         = repeat x00 (Z.to_nat (Z.shiftl (m_blockwsize mp) XFS_WORDLOG))
      /\ sm_flags (snd (xchk_setup_rtsummary o sc)) = sm_flags sc
      /\ sc_trace (snd (xchk_setup_rtsummary o sc)) = sc_trace sc
      /\ sc_signals (snd (xchk_setup_rtsummary o sc)) = sc_signals sc).
Proof.
  unfold xchk_setup_rtsummary, setup_errors. scrub_unfold. cbn [first_error].
  destruct (kvzalloc_fails o); [repeat split; try reflexivity; discriminate|].
  split; [|split; [discriminate|]].
  - destruct (Z.eqb_spec (xchk_rtgroup_init_error o) 0); cbn [negb]; [|reflexivity].
    destruct (xchk_could_repair o); cbn [Z.eqb negb].
    + destruct (Z.eqb_spec (xrep_setup_rtsummary_error o) 0); cbn [negb]; [|reflexivity].
      destruct (Z.eqb_spec (xfile_create_error o) 0); cbn [negb]; [|reflexivity].
      destruct (Z.eqb_spec (xchk_trans_alloc_error o) 0); cbn [negb]; [|reflexivity].
      destruct (Z.eqb_spec (xchk_install_live_inode_error o) 0); cbn [negb]; [|reflexivity].
      destruct (Z.eqb_spec (xchk_ino_dqattach_error o) 0); cbn [negb]; [|reflexivity].
      destruct (sb_rblocks mp =? 0); reflexivity.
    + destruct (Z.eqb_spec (xfile_create_error o) 0); cbn [negb]; [|reflexivity].
      destruct (Z.eqb_spec (xchk_trans_alloc_error o) 0); cbn [negb]; [|reflexivity].
      destruct (Z.eqb_spec (xchk_install_live_inode_error o) 0); cbn [negb]; [|reflexivity].
      destruct (Z.eqb_spec (xchk_ino_dqattach_error o) 0); cbn [negb]; [|reflexivity].
      destruct (sb_rblocks mp =? 0); reflexivity.
  - destruct (Z.eqb_spec (xchk_rtgroup_init_error o) 0); cbn [negb fst];
      [|intros; contradiction].
    destruct (xchk_could_repair o); cbn [Z.eqb negb].
    + destruct (Z.eqb_spec (xrep_setup_rtsummary_error o) 0); cbn [negb fst];
        [|intros; contradiction].
      destruct (Z.eqb_spec (xfile_create_error o) 0); cbn [negb fst];
        [|intros; contradiction].
      destruct (Z.eqb_spec (xchk_trans_alloc_error o) 0); cbn [negb fst];
        [|intros; contradiction].
      destruct (Z.eqb_spec (xchk_install_live_inode_error o) 0); cbn [negb fst];
        [|intros; contradiction].
      destruct (Z.eqb_spec (xchk_ino_dqattach_error o) 0); cbn [negb fst];
        [|intros; contradiction].
      destruct (sb_rblocks mp =? 0); intros _; repeat split; reflexivity.
    + destruct (Z.eqb_spec (xfile_create_error o) 0); cbn [negb fst];
        [|intros; contradiction].
      destruct (Z.eqb_spec (xchk_trans_alloc_error o) 0); cbn [negb fst];
        [|intros; contradiction].
      destruct (Z.eqb_spec (xchk_install_live_inode_error o) 0); cbn [negb fst];
        [|intros; contradiction].
      destruct (Z.eqb_spec (xchk_ino_dqattach_error o) 0); cbn [negb fst];
        [|intros; contradiction].
      destruct (sb_rblocks mp =? 0); intros _; repeat split; reflexivity.
Qed.

Lemma xchk_setup_rtsummary_result_witness :
  sc_ip (snd (xchk_setup_rtsummary (env := demo_env1) demo_setup_ok
                (set_ip demo_rbmip (demo_sc [true]))))
  = demo_rsumip
  /\ sc_signals (snd (xchk_setup_rtsummary (env := demo_env1) demo_setup_ok
                        (set_ip demo_rbmip (demo_sc [true]))))
     = [true].
Proof.
  destruct (xchk_setup_rtsummary_result (env := demo_env1) demo_setup_ok
              (set_ip demo_rbmip (demo_sc [true]))) as (_ & _ & H).
  destruct (H eq_refl) as (Hip & _ & _ & _ & _ & Hs).
  split; [exact Hip | exact Hs].
Defined.

(** X2.  Geometry round trip: on a volume with realtime blocks, when the
    superblock and mount hold the very values the setup recomputes and the
    summary file is block aligned and long enough, the geometry validation
    of [xchk_rtsummary] finds nothing and the check goes on to the fork
    scrubber. *)
Theorem rtsummary_geometry_round_trip `{env : xfs_env} (o : xchk_setup_outcomes)
    (fuel : nat) (sc0 sc : xfs_scrub) :
  sb_rblocks mp <> 0 ->
  xchk_setup_rtsummary o sc0 = (0, sc) ->
  sb_rextents mp = xfs_blen_to_rtbxlen mp (sb_rblocks mp) ->
  m_rsumblocks mp = fst (xfs_rtsummary_blockcount mp) ->
  m_rsumlevels mp = snd (xfs_rtsummary_blockcount mp) ->
  Z.land (i_disk_size (rtg_summary rtg)) (m_blockmask mp) = 0 ->
  XFS_FSB_TO_B mp (m_rsumblocks mp) <= i_disk_size (rtg_summary rtg) ->
  rbmblocks (sc_buf sc) = xfs_rtbitmap_blockcount mp
  /\ geometry_ok sc
  /\ xchk_rtsummary fuel sc = xchk_rtsummary_recompute fuel sc.
Proof.
  intros Hrb Hsetup H1 H2 H3 H4 H5. apply setup_success in Hsetup.
  destruct (Z.eqb_spec (sb_rblocks mp) 0) as [E|_]; [contradiction|].
  assert (Hgeo : geometry_ok sc).
  { unfold geometry_ok. rewrite Hsetup.
    destruct (xchk_could_repair o); cbn [set_geometry rextents rsumlevels rsumblocks];
      rewrite <- H2; auto. }
  split; [|split; [exact Hgeo | now apply xchk_rtsummary_geometry_ok]].
  rewrite Hsetup. destruct (xchk_could_repair o); reflexivity.
Qed.

Lemma rtsummary_geometry_round_trip_witness :
  xchk_rtsummary (env := demo_env1) 4
    (snd (xchk_setup_rtsummary (env := demo_env1) demo_setup_ok (demo_sc [])))
  = xchk_rtsummary_recompute (env := demo_env1) 4
      (snd (xchk_setup_rtsummary (env := demo_env1) demo_setup_ok (demo_sc []))).
Proof.
  apply (rtsummary_geometry_round_trip (env := demo_env1) demo_setup_ok 4 (demo_sc [])
           (snd (xchk_setup_rtsummary (env := demo_env1) demo_setup_ok (demo_sc [])))).
  - discriminate.
  - reflexivity.
  - reflexivity.
  - reflexivity.
  - reflexivity.
  - reflexivity.
  - vm_compute. discriminate.
Defined.

(** The sample volume with a scratch file that fails at summary word 1: the
    first free extent is counted in word 2, the second fails. *)
Lemma rtsum_compute_io_error_witness :
  exists sc',
    xchk_rtsum_compute (env := demo_env_xfile_fails) (demo_sc []) = (- ENOMEM, sc')
    /\ sc_xfile sc' = fold_left (rtsum_bump (env := demo_env_xfile_fails)) [demo_rec_a] ∅
    /\ sm_flags sc' = 0 /\ sc_trace sc' = [].
Proof.
  apply (rtsum_compute_io_error (env := demo_env_xfile_fails) (demo_sc [])
           [demo_rec_a] [] demo_rec_b).
  - reflexivity.
  - reflexivity.
  - repeat constructor.
  - repeat constructor.
  - reflexivity.
  - vm_compute. discriminate.
  - apply quiet_nil.
Defined.

Lemma rtsum_compute_frame_witness :
  sm_flags (snd (xchk_rtsum_compute (env := demo_env1) (demo_sc []))) = 0
  /\ sc_trace (snd (xchk_rtsum_compute (env := demo_env1) (demo_sc []))) = [].
Proof.
  apply (proj2 (rtsum_compute_frame (env := demo_env1) (demo_sc []))). reflexivity.
Defined.

(** *** One record, and what becomes of the result of the recomputation *)

(** X15.  A visit that nothing stops takes one checkpoint, adds one, in 32
    bits, to the summary word that the 32-bit byte position of the record's
    offset falls on (the offset modulo 2^30), changes no byte of the scratch
    file outside the four bytes at that position, and leaves flags and trace
    alone; it returns 0. *)
Theorem record_free_bumps_one_word `{env : xfs_env} (g : xfs_rtgroup)
    (rec : xfs_rtalloc_rec) (sc : xfs_scrub) :
  quiet 1 (sc_signals sc) ->
  rec_in_range g rec = true ->
  rec_io_ok rec ->
  exists sc',
    xchk_rtsum_record_free g rec sc = (0, sc')
    /\ sum_value (sc_xfile sc') (rtsum_word rec)
       = (sum_value (sc_xfile sc) (rtsum_word rec) + 1) mod 2 ^ 32
    /\ sum_pos (rtsum_offs rec) = 4 * rtsum_word rec
    /\ (forall k, ~ (sum_pos (rtsum_offs rec) <= k < sum_pos (rtsum_offs rec) + 4) ->
          xfile_byte (sc_xfile sc') k = xfile_byte (sc_xfile sc) k)
    /\ sm_flags sc' = sm_flags sc
    /\ sc_trace sc' = sc_trace sc
    /\ sc_signals sc' = drop 1 (sc_signals sc).
Proof.
  intros Hq Hr Hio. exists (scan_state sc [rec]).
  split; [now apply record_free_ok|].
  cbn [scan_state sc_xfile set_xfile fold_left length sm_flags sc_trace sc_signals
       set_signals].
  split; [|split; [|split; [|repeat split; reflexivity]]].
  - rewrite sum_value_bump, Z.eqb_refl. reflexivity.
  - unfold rtsum_word. rewrite sum_pos_word. unfold XFS_WORDLOG.
    rewrite Z.shiftl_mul_pow2 by lia. lia.
  - intros k Hk. unfold rtsum_bump. rewrite xfile_byte_write.
    destruct (decide _) as [H|H]; [|reflexivity].
    cbn [raw_to_bytes length] in H. lia.
Qed.

Lemma record_free_bumps_one_word_witness :
  exists sc',
    xchk_rtsum_record_free (env := demo_env1) (rtg (xfs_env := demo_env1)) demo_rec_a
      (demo_sc [false]) = (0, sc')
    /\ sum_value (env := demo_env1) (sc_xfile sc') 2 = (0 + 1) mod 2 ^ 32
    /\ 8 = 4 * 2
    /\ (forall k, ~ (8 <= k < 8 + 4) -> xfile_byte (sc_xfile sc') k = x00)
    /\ sm_flags sc' = 0
    /\ sc_trace sc' = []
    /\ sc_signals sc' = [].
Proof.
  apply (record_free_bumps_one_word (env := demo_env1) (rtg (xfs_env := demo_env1))
           demo_rec_a (demo_sc [false])).
  - repeat constructor.
  - reflexivity.
  - reflexivity.
Defined.

(** X16.  What [xchk_rtsummary] makes of a recomputation that fails, once
    the geometry and the forks are in order: -EFSCORRUPTED, as for a bitmap
    file of the wrong size, where nothing is walked, becomes a mark on the
    bitmap inode and a return of 0; any other error is returned as it is
    with no mark added; in neither case is a block compared. *)
Theorem rtsummary_recompute_failure `{env : xfs_env} (fuel : nat)
    (sc sc1 : xfs_scrub) :
  geometry_ok sc ->
  xchk_metadata_inode_forks sc = (0, sc1) ->
  Z.land (sm_flags sc1) XFS_SCRUB_OFLAG_CORRUPT = 0 ->
  (fst (xchk_rtsum_compute sc1) = - EFSCORRUPTED ->
   xchk_rtsummary fuel sc
   = (Some 0, snd (xchk_ino_set_corrupt (i_ino (rtg_bitmap rtg))
                     (snd (xchk_rtsum_compute sc1)))))
  /\ (XFS_FSB_TO_B mp (xfs_rtbitmap_blockcount mp) <> i_disk_size (rtg_bitmap rtg) ->
      xchk_rtsummary fuel sc
      = (Some 0, snd (xchk_ino_set_corrupt (i_ino (rtg_bitmap rtg)) sc1)))
  /\ (fst (xchk_rtsum_compute sc1) <> 0 ->
      fst (xchk_rtsum_compute sc1) <> - EFSCORRUPTED ->
      xchk_rtsummary fuel sc
      = (Some (fst (xchk_rtsum_compute sc1)), snd (xchk_rtsum_compute sc1))).
Proof.
  intros Hgeo Hforks Hf. rewrite xchk_rtsummary_geometry_ok by assumption.
  split; [|split].
  - intros He. apply (xchk_rtsummary_recompute_corrupt fuel sc sc1 _ Hforks Hf).
    destruct (xchk_rtsum_compute sc1) as [e s]. cbn [fst snd] in *. now subst e.
  - intros Hsize. apply (xchk_rtsummary_recompute_corrupt fuel sc sc1 _ Hforks Hf).
    unfold xchk_rtsum_compute.
    destruct (Z.eqb_spec (XFS_FSB_TO_B mp (xfs_rtbitmap_blockcount mp))
                (i_disk_size (rtg_bitmap rtg))); [contradiction | reflexivity].
  - intros H0 Hc.
    apply (xchk_rtsummary_recompute_error fuel sc sc1 _ _ Hforks Hf); try assumption.
    now destruct (xchk_rtsum_compute sc1).
Qed.

Lemma rtsummary_recompute_failure_witness :
  xchk_rtsummary (env := demo_env_xfile_fails) 4 (demo_sc [])
  = (Some (- ENOMEM), snd (xchk_rtsum_compute (env := demo_env_xfile_fails) (demo_sc [])))
  /\ xchk_rtsummary (env := demo_env_bad_extent) 4 (demo_sc [])
     = (Some 0, snd (xchk_ino_set_corrupt 129
                       (snd (xchk_rtsum_compute (env := demo_env_bad_extent)
                               (demo_sc []))))).
Proof.
  split.
  - apply (proj2 (proj2 (rtsummary_recompute_failure (env := demo_env_xfile_fails) 4
                           (demo_sc []) (demo_sc [])
                           ltac:(repeat split; try reflexivity;
                                 try (vm_compute; discriminate))
                           eq_refl eq_refl)));
      vm_compute; discriminate.
  - apply (proj1 (rtsummary_recompute_failure (env := demo_env_bad_extent) 4
                    (demo_sc []) (demo_sc [])
                    ltac:(repeat split; try reflexivity; try (vm_compute; discriminate))
                    eq_refl eq_refl)).
    reflexivity.
Defined.
